(** * 01bsp_radio (at86rf215): the flag-driven duty-cycle loop

    A shallow embedding of [projects/at86rf215/01bsp_radio/01bsp_radio.c]:
    the pending-event flags, the two-mode state machine run by [mote_main],
    the interrupt callbacks and the debug counters, followed by the
    properties of the specification that were checked against them.

    Conventions.
    - A [uint8_t] or [uint16_t] is a [Z]; every store into such an object
      is written with its wrap-around ([u8], [u16]).
    - The byte array [app_vars.packet] is a [list Z], updated by index.
    - Calls into the board support package are recorded, oldest first, in
      the [calls] field of the [world]; the frame held by the radio is the
      [radio_frame] field.
    - The loops of [mote_main] take fuel; a result [OutOfFuel] for every
      amount of fuel is non-termination of the C loop. *)

From Stdlib Require Import ZArith Lia Bool.
From stdpp Require Import base list relations.

Local Open Scope Z_scope.

(** ** Machine integers *)

Definition u8 (z : Z) : Z := z mod 2 ^ 8.
Definition u16 (z : Z) : Z := z mod 2 ^ 16.

(** ** defines (lines 27-32)

    [LENGTH_CRC] comes from [radio.h], outside this file; it is a
    variable of the section [Mote] below. *)

Definition CHANNEL : Z := 0.
Definition CHANNEL_SPACING : Z := 800.
Definition FREQUENCY_0 : Z := 9028000.
Definition TIMER_PERIOD : Z := 0xffff.
Definition ID : Z := 0x99.

(** ** variables (lines 36-67) *)

Definition APP_FLAG_START_FRAME : Z := 0x01.
Definition APP_FLAG_END_FRAME : Z := 0x02.
Definition APP_FLAG_TIMER : Z := 0x04.

(** [app_state_t] is a C enum; [memset] stores 0 in it, which is neither
    enumerator, so the field is kept as the integer it is. *)
Definition APP_STATE_TX : Z := 0x01.
Definition APP_STATE_RX : Z := 0x02.

Record app_dbg_t := mk_app_dbg {
  num_radioTimerOverflows : Z;
  num_radioTimerCompare : Z;
  num_startFrame : Z;
  num_endFrame : Z;
  num_timer : Z
}.

Record app_vars_t := mk_app_vars {
  flags : Z;
  state : Z;
  packet : list Z;
  packet_len : Z;
  rxpk_rssi : Z;
  rxpk_lqi : Z;
  rxpk_crc : bool
}.

Definition set_flags (f : Z) (v : app_vars_t) : app_vars_t :=
  mk_app_vars f (state v) (packet v) (packet_len v)
              (rxpk_rssi v) (rxpk_lqi v) (rxpk_crc v).

Definition set_state (s : Z) (v : app_vars_t) : app_vars_t :=
  mk_app_vars (flags v) s (packet v) (packet_len v)
              (rxpk_rssi v) (rxpk_lqi v) (rxpk_crc v).

Definition set_packet (p : list Z) (v : app_vars_t) : app_vars_t :=
  mk_app_vars (flags v) (state v) p (packet_len v)
              (rxpk_rssi v) (rxpk_lqi v) (rxpk_crc v).

Definition set_packet_len (n : Z) (v : app_vars_t) : app_vars_t :=
  mk_app_vars (flags v) (state v) (packet v) n
              (rxpk_rssi v) (rxpk_lqi v) (rxpk_crc v).

(** ** The board support package, as seen from the application *)

Module Bsp.
Inductive call :=
| board_init
| board_sleep
| radio_setOverflowCb
| radio_setCompareCb
| radio_setStartFrameCb
| radio_setEndFrameCb
| bsp_timer_set_callback
| bsp_timer_scheduleIn (ticks : Z)
| radio_rfOn
| radio_rfOff
| radio_setFrequency (spacing base channel : Z)
| radio_rxEnable
| radio_txEnable
| radio_txNow
| radio_loadPacket (bytes : list Z) (len : Z)
| radio_getReceivedFrame
| leds_error_on
| leds_error_off
| leds_sync_on
| leds_sync_off.
End Bsp.

Record world := mk_world {
  app_vars : app_vars_t;
  app_dbg : app_dbg_t;
  calls : list Bsp.call;
  radio_frame : list Z
}.

Definition with_vars (f : app_vars_t -> app_vars_t) (w : world) : world :=
  mk_world (f (app_vars w)) (app_dbg w) (calls w) (radio_frame w).

Definition with_dbg (f : app_dbg_t -> app_dbg_t) (w : world) : world :=
  mk_world (app_vars w) (f (app_dbg w)) (calls w) (radio_frame w).

Definition bsp (c : Bsp.call) (w : world) : world :=
  mk_world (app_vars w) (app_dbg w) (calls w ++ [c]) (radio_frame w).

(** The radio receives a frame: a move of the environment. *)
Definition radio_receives (f : list Z) (w : world) : world :=
  mk_world (app_vars w) (app_dbg w) (calls w) f.

(** ** Results of code that loops *)

Inductive outcome (A : Type) : Type :=
| Done (a : A)
| OutOfFuel.
Arguments Done {A} a.
Arguments OutOfFuel {A}.

#[global] Instance outcome_ret : MRet outcome := fun A a => Done a.
#[global] Instance outcome_bind : MBind outcome := fun A B f m =>
  match m with
  | Done a => f a
  | OutOfFuel => OutOfFuel
  end.

(** ** Operations on the flags word

    [app_vars.flags |= k] and [app_vars.flags &= ~k] are compound
    assignments on a plain [uint8_t]: a load of the word, the bit
    operation on the promoted value, and a store of the truncated result.
    Nothing in the file masks interrupts around them. *)

Definition flags_load (w : world) : Z := flags (app_vars w).

Definition flags_store (f : Z) (w : world) : world :=
  with_vars (set_flags (u8 f)) w.

Definition raise_flag (k : Z) (w : world) : world :=
  flags_store (Z.lor (flags_load w) k) w.

Definition clear_flag (k : Z) (w : world) : world :=
  flags_store (Z.land (flags_load w) (Z.lnot k)) w.

(** The test [app_vars.flags & k]. *)
Definition flag_set (k : Z) (w : world) : bool :=
  negb (Z.land (flags_load w) k =? 0).

(** ** callbacks (lines 222-257) *)

Definition cb_radioTimerOverflows (w : world) : world :=
  with_dbg (fun d => mk_app_dbg (u8 (num_radioTimerOverflows d + 1))
                       (num_radioTimerCompare d) (num_startFrame d)
                       (num_endFrame d) (num_timer d)) w.

Definition cb_radioTimerCompare (w : world) : world :=
  with_dbg (fun d => mk_app_dbg (num_radioTimerOverflows d)
                       (u8 (num_radioTimerCompare d + 1)) (num_startFrame d)
                       (num_endFrame d) (num_timer d)) w.

Definition cb_startFrame (timestamp : Z) (w : world) : world :=
  let w := raise_flag APP_FLAG_START_FRAME w in
  with_dbg (fun d => mk_app_dbg (num_radioTimerOverflows d)
                       (num_radioTimerCompare d) (u8 (num_startFrame d + 1))
                       (num_endFrame d) (num_timer d)) w.

Definition cb_endFrame (timestamp : Z) (w : world) : world :=
  let w := raise_flag APP_FLAG_END_FRAME w in
  with_dbg (fun d => mk_app_dbg (num_radioTimerOverflows d)
                       (num_radioTimerCompare d) (num_startFrame d)
                       (u8 (num_endFrame d + 1)) (num_timer d)) w.

Definition cb_timer (w : world) : world :=
  let w := raise_flag APP_FLAG_TIMER w in
  let w := with_dbg (fun d => mk_app_dbg (num_radioTimerOverflows d)
                       (num_radioTimerCompare d) (num_startFrame d)
                       (num_endFrame d) (u8 (num_timer d + 1))) w in
  bsp (Bsp.bsp_timer_scheduleIn TIMER_PERIOD) w.

(** The notifications the hardware can deliver, and their handlers. *)
Inductive irq :=
| IrqRadioTimerOverflows
| IrqRadioTimerCompare
| IrqStartFrame (timestamp : Z)
| IrqEndFrame (timestamp : Z)
| IrqTimer.

Definition isr (q : irq) (w : world) : world :=
  match q with
  | IrqRadioTimerOverflows => cb_radioTimerOverflows w
  | IrqRadioTimerCompare => cb_radioTimerCompare w
  | IrqStartFrame t => cb_startFrame t w
  | IrqEndFrame t => cb_endFrame t w
  | IrqTimer => cb_timer w
  end.

(** Modelled from the spec: [radio_getReceivedFrame] belongs to the radio
    driver, whose code is outside [01bsp_radio.c]. The specification
    lists it as [fetchReceivedFrame(intoBuffer) -> actualLength] and
    expects the fetched length to be at most the capacity of the buffer:
    the frame held by the radio is copied to the start of the buffer, as
    far as the buffer reaches, and the number of bytes copied is the
    result. *)
Definition radio_getReceivedFrame (frame buf : list Z) : list Z * Z :=
  let got := take (length buf) frame in
  (got ++ drop (length got) buf, Z.of_nat (length got)).

(** The call statement [radio_getReceivedFrame(app_vars.packet)] of line
    167: only the buffer is passed and no result is used. *)
Definition fetch_frame (w : world) : world :=
  let '(buf, _) := radio_getReceivedFrame (radio_frame w) (packet (app_vars w)) in
  bsp Bsp.radio_getReceivedFrame (with_vars (set_packet buf) w).

(** ** Straight-line blocks

    A block is the list of its statements in program order, each a
    transformer of the world. [run_block] runs them one after the other;
    [block_states] lists, for each statement, the world it starts from. *)

Fixpoint run_block (b : list (world -> world)) (w : world) : world :=
  match b with
  | [] => w
  | s :: b' => run_block b' (s w)
  end.

Fixpoint block_states (b : list (world -> world)) (w : world) : list world :=
  match b with
  | [] => []
  | s :: b' => w :: block_states b' (s w)
  end.

(** ** mote_main (lines 82-218) *)

Section Mote.

Variable LENGTH_CRC : Z.

Definition LENGTH_PACKET : Z := 2043 + LENGTH_CRC.

(** [sizeof(app_vars.packet)], an array of [LENGTH_PACKET] bytes. *)
Definition sizeof_packet : Z := LENGTH_PACKET.

(** The loop of lines 99-101 and 201-203,
    [for (i=0;i<app_vars.packet_len;i++) app_vars.packet[i] = ID;],
    entered with the current value of [i]. The counter [i] is the
    [uint8_t] declared on line 83, so [i++] stores [u8 (i + 1)]; the
    bound is the [uint16_t] field, read again at every test. An index
    beyond the array would be undefined in C; the list update leaves the
    list alone there. *)
Fixpoint fill_loop (fuel : nat) (i : Z) (w : world) : outcome world :=
  if i <? packet_len (app_vars w) then
    match fuel with
    | O => OutOfFuel
    | S fuel' =>
        fill_loop fuel' (u8 (i + 1))
          (with_vars (fun v => set_packet (<[Z.to_nat i := ID]> (packet v)) v) w)
    end
  else Done w.

(** One iteration of the body of that loop together with [i++], for
    statements about the loop that do not depend on fuel. *)
Definition fill_step (s : Z * world) : Z * world :=
  (u8 (s.1 + 1),
   with_vars (fun v => set_packet (<[Z.to_nat s.1 := ID]> (packet v)) v) s.2).

(** [memset(&app_vars,0,sizeof(app_vars_t))] *)
Definition zeroed_app_vars : app_vars_t :=
  mk_app_vars 0 0 (replicate (Z.to_nat sizeof_packet) 0) 0 0 0 false.

(** Lines 86-98: up to the assignment of [packet_len]. *)
Definition startup_prepare (w : world) : world :=
  let w := with_vars (fun _ => zeroed_app_vars) w in
  let w := bsp Bsp.board_init w in
  let w := bsp Bsp.radio_setOverflowCb w in
  let w := bsp Bsp.radio_setCompareCb w in
  let w := bsp Bsp.radio_setStartFrameCb w in
  let w := bsp Bsp.radio_setEndFrameCb w in
  with_vars (set_packet_len (u16 sizeof_packet)) w.

(** Lines 104-116: from the timer to the pre-set flag. *)
Definition startup_finish (w : world) : world :=
  let w := bsp Bsp.bsp_timer_set_callback w in
  let w := bsp (Bsp.bsp_timer_scheduleIn TIMER_PERIOD) w in
  let w := bsp Bsp.radio_rfOn w in
  let w := bsp (Bsp.radio_setFrequency CHANNEL_SPACING FREQUENCY_0 CHANNEL) w in
  let w := bsp Bsp.radio_rxEnable w in
  let w := with_vars (set_state APP_STATE_RX) w in
  raise_flag APP_FLAG_TIMER w.

(** Lines 86-116: everything before [while (1)]. *)
Definition mote_main_startup (fuel : nat) (w : world) : outcome world :=
  w ← fill_loop fuel 0 (startup_prepare w);
  mret (startup_finish w).

(** Lines 131-151: the APP_FLAG_START_FRAME block. *)
Definition handle_start_frame (w : world) : world :=
  if flag_set APP_FLAG_START_FRAME w then
    let w :=
      if state (app_vars w) =? APP_STATE_RX then bsp Bsp.leds_error_on w
      else if state (app_vars w) =? APP_STATE_TX then bsp Bsp.leds_sync_on w
      else w in
    clear_flag APP_FLAG_START_FRAME w
  else w.

(** Lines 161-173: [case APP_STATE_RX] of the APP_FLAG_END_FRAME block,
    statement by statement: the assignment of line 164, the call of
    lines 167-169, the call of line 172. *)
Definition end_frame_rx_block : list (world -> world) :=
  [ with_vars (set_packet_len (u16 sizeof_packet));
    fetch_frame;
    bsp Bsp.leds_error_off ].

Definition end_frame_rx (w : world) : world :=
  run_block end_frame_rx_block w.

(** Lines 174-183: [case APP_STATE_TX] of the APP_FLAG_END_FRAME block. *)
Definition end_frame_tx (w : world) : world :=
  let w := bsp Bsp.radio_rxEnable w in
  let w := with_vars (set_state APP_STATE_RX) w in
  bsp Bsp.leds_sync_off w.

(** Lines 156-187: the APP_FLAG_END_FRAME block. *)
Definition handle_end_frame (w : world) : world :=
  if flag_set APP_FLAG_END_FRAME w then
    let w :=
      if state (app_vars w) =? APP_STATE_RX then end_frame_rx w
      else if state (app_vars w) =? APP_STATE_TX then end_frame_tx w
      else w in
    clear_flag APP_FLAG_END_FRAME w
  else w.

(** Lines 196-210: the body of [if (app_vars.state==APP_STATE_RX)]. *)
Definition timer_rx (fuel : nat) (w : world) : outcome world :=
  let w := bsp Bsp.radio_rfOff w in
  let w := with_vars (set_packet_len (u16 sizeof_packet)) w in
  w ← fill_loop fuel 0 w;
  let w := bsp (Bsp.radio_loadPacket (packet (app_vars w))
                                     (packet_len (app_vars w))) w in
  let w := bsp Bsp.radio_txEnable w in
  let w := bsp Bsp.radio_txNow w in
  mret (with_vars (set_state APP_STATE_TX) w).

(** Lines 192-215: the APP_FLAG_TIMER block. *)
Definition handle_timer (fuel : nat) (w : world) : outcome world :=
  if flag_set APP_FLAG_TIMER w then
    w ← (if state (app_vars w) =? APP_STATE_RX then timer_rx fuel w
         else mret w);
    mret (clear_flag APP_FLAG_TIMER w)
  else mret w.

(** Lines 129-215: one pass over the three blocks. *)
Definition drain_pass (fuel : nat) (w : world) : outcome world :=
  handle_timer fuel (handle_end_frame (handle_start_frame w)).

(** Lines 126-216: [while (app_vars.flags) { ... }], with no interrupt
    arriving while it runs. *)
Fixpoint drain_loop (fuel : nat) (w : world) : outcome world :=
  if flags_load w =? 0 then Done w
  else
    match fuel with
    | O => OutOfFuel
    | S fuel' =>
        match drain_pass fuel' w with
        | Done w' => drain_loop fuel' w'
        | OutOfFuel => OutOfFuel
        end
    end.

(** Lines 118-217 as a transition system. The program points are the
    tests and blocks of the two nested loops; a notification, or a frame
    arriving at the radio, may come between any two of them. *)
Inductive pc :=
| AtIdle        (* line 121: while (app_vars.flags==0x00) *)
| AtDrain       (* line 126: while (app_vars.flags) *)
| AtStartFrame  (* line 131 *)
| AtEndFrame    (* line 156 *)
| AtTimer.      (* line 192 *)

Inductive mote_step : pc * world -> pc * world -> Prop :=
| step_irq p q w :
    mote_step (p, w) (p, isr q w)
| step_radio p f w :
    mote_step (p, w) (p, radio_receives f w)
| step_sleep w :
    flags_load w = 0 ->
    mote_step (AtIdle, w) (AtIdle, bsp Bsp.board_sleep w)
| step_wake w :
    flags_load w <> 0 ->
    mote_step (AtIdle, w) (AtDrain, w)
| step_drain_enter w :
    flags_load w <> 0 ->
    mote_step (AtDrain, w) (AtStartFrame, w)
| step_drain_exit w :
    flags_load w = 0 ->
    mote_step (AtDrain, w) (AtIdle, w)
| step_start_frame w :
    mote_step (AtStartFrame, w) (AtEndFrame, handle_start_frame w)
| step_end_frame w :
    mote_step (AtEndFrame, w) (AtTimer, handle_end_frame w)
| step_timer fuel w w' :
    handle_timer fuel w = Done w' ->
    mote_step (AtTimer, w) (AtDrain, w').

Definition mote_reaches : pc * world -> pc * world -> Prop := rtc mote_step.

(** [mote_main] from its first line. The startup is the straight-line
    code of lines 86-98, the loop of lines 99-101 taken one iteration at
    a time, and the code of lines 104-116, which hands over to the loop
    of line 118 at its idle wait. The radio callbacks are registered
    before the startup loop (lines 92-95) and may be called during it;
    the timer callback is registered after it (line 104). *)
Inductive main_pc :=
| AtBoot              (* line 86 *)
| AtFill (i : Z)      (* line 99: the test i<app_vars.packet_len *)
| InLoop (p : pc).    (* lines 118-217 *)

Inductive main_step : main_pc * world -> main_pc * world -> Prop :=
| main_boot w :
    main_step (AtBoot, w) (AtFill 0, startup_prepare w)
| main_fill i w :
    i < packet_len (app_vars w) ->
    main_step (AtFill i, w) (AtFill (fill_step (i, w)).1, (fill_step (i, w)).2)
| main_fill_end i w :
    ~ i < packet_len (app_vars w) ->
    main_step (AtFill i, w) (InLoop AtIdle, startup_finish w)
| main_fill_irq i q w :
    q <> IrqTimer ->
    main_step (AtFill i, w) (AtFill i, isr q w)
| main_loop p w p' w' :
    mote_step (p, w) (p', w') ->
    main_step (InLoop p, w) (InLoop p', w').

Definition main_reaches : main_pc * world -> main_pc * world -> Prop :=
  rtc main_step.

(** The flag kinds of the anonymous enum of lines 36-40. *)
Definition app_flag (k : Z) : Prop :=
  k = APP_FLAG_START_FRAME \/ k = APP_FLAG_END_FRAME \/ k = APP_FLAG_TIMER.

(** The timer block meets mode RX in the pass that starts in [w]: the
    flag is set and the mode is RX, or is TX with an end of frame pending
    (the end-of-frame block comes first and switches to RX). *)
Definition timer_meets_rx (w : world) : bool :=
  flag_set APP_FLAG_TIMER w &&
  ((state (app_vars w) =? APP_STATE_RX) ||
   ((state (app_vars w) =? APP_STATE_TX) && flag_set APP_FLAG_END_FRAME w)).

(** The array has the size of its declaration. *)
Definition packet_sized (w : world) : Prop :=
  Z.of_nat (length (packet (app_vars w))) = LENGTH_PACKET.

(** The flag a notification raises; the two radio-timer notifications
    raise none. *)
Definition irq_flag (q : irq) : option Z :=
  match q with
  | IrqStartFrame _ => Some APP_FLAG_START_FRAME
  | IrqEndFrame _ => Some APP_FLAG_END_FRAME
  | IrqTimer => Some APP_FLAG_TIMER
  | IrqRadioTimerOverflows | IrqRadioTimerCompare => None
  end.

(** The statement [app_vars.flags &= ~k] of the loop with the
    notification [q] delivered after its load of the flags word and
    before its store. *)
Definition clear_flag_interrupted (k : Z) (q : irq) (w : world) : world :=
  let loaded := flags_load w in
  flags_store (Z.land loaded (Z.lnot k)) (isr q w).

(** The fields of [app_dbg_t] and the one each notification counts in. *)
Inductive counter :=
| NumRadioTimerOverflows
| NumRadioTimerCompare
| NumStartFrame
| NumEndFrame
| NumTimer.

Definition read_counter (c : counter) (d : app_dbg_t) : Z :=
  match c with
  | NumRadioTimerOverflows => num_radioTimerOverflows d
  | NumRadioTimerCompare => num_radioTimerCompare d
  | NumStartFrame => num_startFrame d
  | NumEndFrame => num_endFrame d
  | NumTimer => num_timer d
  end.

Definition irq_counter (q : irq) : counter :=
  match q with
  | IrqRadioTimerOverflows => NumRadioTimerOverflows
  | IrqRadioTimerCompare => NumRadioTimerCompare
  | IrqStartFrame _ => NumStartFrame
  | IrqEndFrame _ => NumEndFrame
  | IrqTimer => NumTimer
  end.

(** A node of the at86rf215 build (2047 bytes in the packet) with the
    flags word [fl] and the mode [st]: an all-zero packet, no driver call
    made yet, and a three-byte frame in the radio. *)
Definition mote (fl st : Z) : world :=
  mk_world (mk_app_vars fl st (replicate 2047 0) 2047 0 0 false)
           (mk_app_dbg 0 0 0 0 0) [] [0x41; 0x42; 0x43].

(** * Properties *)

(** [radio.h] defines [LENGTH_CRC] as the length of the checksum the radio
    appends (the comment of line 27 gives 2047 for [LENGTH_PACKET], that
    is 4). All that is assumed is that it is not negative and that
    [sizeof(app_vars.packet)] fits the [uint16_t] it is stored in. *)
Hypothesis LENGTH_CRC_range : 0 <= LENGTH_CRC <= 63492.

(** ** Bits of the flags word *)

Lemma testbit_u8 (x n : Z) : 0 <= n < 8 -> Z.testbit (u8 x) n = Z.testbit x n.
Proof. intros Hn. unfold u8. apply Z.mod_pow2_bits_low. lia. Qed.

Lemma land_bit (x b : Z) :
  0 <= b -> Z.land x (2 ^ b) = if Z.testbit x b then 2 ^ b else 0.
Proof.
  intros Hb. apply Z.bits_inj'. intros n Hn.
  rewrite Z.land_spec, Z.pow2_bits_eqb by lia.
  destruct (Z.eqb_spec b n) as [->|Hne].
  - destruct (Z.testbit x n); simpl.
    + rewrite Z.pow2_bits_eqb by lia. symmetry. apply Z.eqb_refl.
    + now rewrite Z.bits_0.
  - rewrite andb_false_r. destruct (Z.testbit x b).
    + rewrite Z.pow2_bits_eqb by lia. symmetry. now apply Z.eqb_neq.
    + now rewrite Z.bits_0.
Qed.

Lemma flag_set_bit (b : Z) (w : world) :
  0 <= b -> flag_set (2 ^ b) w = Z.testbit (flags_load w) b.
Proof.
  intros Hb. unfold flag_set. rewrite land_bit by lia.
  assert (0 < 2 ^ b) by (apply Z.pow_pos_nonneg; lia).
  destruct (Z.testbit (flags_load w) b); simpl.
  - destruct (Z.eqb_spec (2 ^ b) 0); [lia | reflexivity].
  - reflexivity.
Qed.

Lemma flag_set_START_FRAME w :
  flag_set APP_FLAG_START_FRAME w = Z.testbit (flags_load w) 0.
Proof. apply (flag_set_bit 0). lia. Qed.

Lemma flag_set_END_FRAME w :
  flag_set APP_FLAG_END_FRAME w = Z.testbit (flags_load w) 1.
Proof. apply (flag_set_bit 1). lia. Qed.

Lemma flag_set_TIMER w :
  flag_set APP_FLAG_TIMER w = Z.testbit (flags_load w) 2.
Proof. apply (flag_set_bit 2). lia. Qed.

(** Evaluates the bits of literal constants. *)
Ltac const_bits :=
  repeat match goal with
         | |- context [Z.testbit (Zpos ?p) ?n] =>
             let b := eval vm_compute in (Z.testbit (Zpos p) n) in
             change (Z.testbit (Zpos p) n) with b
         end.

(** Rewrites a goal about [flag_set] after raises and clears into one
    about single bits of the original word, and decides it. *)
Ltac flag_bits :=
  rewrite ?flag_set_START_FRAME, ?flag_set_END_FRAME, ?flag_set_TIMER;
  unfold clear_flag, raise_flag, flags_store, flags_load,
    APP_FLAG_START_FRAME, APP_FLAG_END_FRAME, APP_FLAG_TIMER;
  cbn [with_vars with_dbg bsp set_flags flags app_vars];
  repeat rewrite ?testbit_u8, ?Z.land_spec, ?Z.lor_spec, ?Z.lnot_spec by lia;
  const_bits; cbn [negb];
  rewrite ?andb_true_r, ?andb_false_r, ?orb_true_r, ?orb_false_r;
  try reflexivity.

(** Side conditions on flag kinds. *)
Ltac flag_kind := solve [assumption | discriminate | unfold app_flag; auto].

Lemma flag_set_clear_other (j k : Z) (w : world) :
  app_flag j -> app_flag k -> j <> k ->
  flag_set j (clear_flag k w) = flag_set j w.
Proof.
  intros [-> | [-> | ->]] [-> | [-> | ->]] Hne; try congruence; flag_bits.
Qed.

Lemma flag_set_clear_same (k : Z) (w : world) :
  app_flag k -> flag_set k (clear_flag k w) = false.
Proof. intros [-> | [-> | ->]]; flag_bits. Qed.

Lemma flag_set_raise_same (k : Z) (w : world) :
  app_flag k -> flag_set k (raise_flag k w) = true.
Proof. intros [-> | [-> | ->]]; flag_bits. Qed.

Lemma flag_set_raise_other (j k : Z) (w : world) :
  app_flag j -> app_flag k -> j <> k ->
  flag_set j (raise_flag k w) = flag_set j w.
Proof.
  intros [-> | [-> | ->]] [-> | [-> | ->]] Hne; try congruence; flag_bits.
Qed.

(** ** The fill loop *)

Lemma u8_range (z : Z) : 0 <= u8 z < 256.
Proof. unfold u8. apply Z.mod_pos_bound. lia. Qed.

Lemma u16_sizeof_packet : u16 sizeof_packet = LENGTH_PACKET.
Proof using LENGTH_CRC_range.
  unfold u16, sizeof_packet, LENGTH_PACKET. apply Z.mod_small. lia.
Qed.

(** A [uint8_t] counter never reaches a bound of 256 or more: the loop
    does not end, whatever the fuel. *)
Lemma fill_loop_diverges (fuel : nat) (i : Z) (w : world) :
  0 <= i < 256 -> 256 <= packet_len (app_vars w) ->
  fill_loop fuel i w = OutOfFuel.
Proof.
  revert i w. induction fuel as [|fuel IH]; intros i w Hi Hlen; simpl.
  - destruct (Z.ltb_spec i (packet_len (app_vars w))); [reflexivity | lia].
  - destruct (Z.ltb_spec i (packet_len (app_vars w))); [| lia].
    apply IH; [apply u8_range | exact Hlen].
Qed.

Lemma fill_loop_only_packet (fuel : nat) (i : Z) (w w' : world) :
  fill_loop fuel i w = Done w' -> exists p, w' = with_vars (set_packet p) w.
Proof.
  revert i w. induction fuel as [|fuel IH]; intros i w; simpl;
    destruct (i <? packet_len (app_vars w)); try discriminate.
  - intros [= <-]. exists (packet (app_vars w)). now destruct w as [[]].
  - intros Hrun. apply IH in Hrun as [p ->]. now exists p.
  - intros [= <-]. exists (packet (app_vars w)). now destruct w as [[]].
Qed.

(** With the bound of the upstream project (at most 255, the counter's
    range) the same loop ends and fills the packet. *)
Lemma fill_loop_small (w : world) (n : nat) (fuel : nat) (i : nat) :
  packet_len (app_vars w) = Z.of_nat n -> length (packet (app_vars w)) = n ->
  (n <= 255)%nat -> (i <= n)%nat -> (n - i <= fuel)%nat ->
  fill_loop fuel (Z.of_nat i) w =
  Done (with_vars (set_packet (take i (packet (app_vars w)) ++ replicate (n - i) ID)) w).
Proof.
  revert i w. induction fuel as [|fuel IH]; intros i w Hlen Hsz Hn Hi Hfuel.
  - assert (i = n) as -> by lia. simpl. rewrite Hlen, Z.ltb_irrefl.
    rewrite Nat.sub_diag, app_nil_r, firstn_all2 by lia. now destruct w as [[]].
  - simpl. rewrite Hlen. destruct (Z.ltb_spec (Z.of_nat i) (Z.of_nat n)) as [Hlt|Hge].
    + replace (u8 (Z.of_nat i + 1)) with (Z.of_nat (S i))
        by (unfold u8; rewrite Z.mod_small; lia).
      rewrite IH; cbn [with_vars app_vars set_packet packet packet_len];
        rewrite ?length_insert; try lia.
      f_equal. unfold with_vars. cbn. f_equal. unfold set_packet. cbn. f_equal.
      rewrite Nat2Z.id. replace (n - i)%nat with (S (n - S i)) by lia.
      rewrite (take_S_r _ _ ID) by (apply list_lookup_insert_eq; lia).
      rewrite take_insert_ge by lia. now rewrite <- app_assoc.
    + assert (i = n) as -> by lia.
      rewrite Nat.sub_diag, app_nil_r, firstn_all2 by lia. now destruct w as [[]].
Qed.

(** ** What the blocks leave alone *)

Lemma flag_set_ext (k : Z) (w1 w2 : world) :
  flags_load w1 = flags_load w2 -> flag_set k w1 = flag_set k w2.
Proof. unfold flag_set. now intros ->. Qed.

Lemma handle_start_frame_clear (w : world) :
  flag_set APP_FLAG_START_FRAME w = false -> handle_start_frame w = w.
Proof. unfold handle_start_frame. now intros ->. Qed.

Lemma handle_end_frame_clear (w : world) :
  flag_set APP_FLAG_END_FRAME w = false -> handle_end_frame w = w.
Proof. unfold handle_end_frame. now intros ->. Qed.

Lemma handle_timer_clear (fuel : nat) (w : world) :
  flag_set APP_FLAG_TIMER w = false -> handle_timer fuel w = Done w.
Proof. unfold handle_timer. now intros ->. Qed.

Lemma handle_end_frame_rx (w : world) :
  state (app_vars w) = APP_STATE_RX -> flag_set APP_FLAG_END_FRAME w = true ->
  handle_end_frame w = clear_flag APP_FLAG_END_FRAME (end_frame_rx w).
Proof. unfold handle_end_frame. now intros -> ->. Qed.

Lemma handle_end_frame_tx (w : world) :
  state (app_vars w) = APP_STATE_TX -> flag_set APP_FLAG_END_FRAME w = true ->
  handle_end_frame w = clear_flag APP_FLAG_END_FRAME (end_frame_tx w).
Proof. unfold handle_end_frame. now intros -> ->. Qed.

Lemma handle_timer_not_rx (fuel : nat) (w : world) :
  state (app_vars w) <> APP_STATE_RX -> flag_set APP_FLAG_TIMER w = true ->
  handle_timer fuel w = Done (clear_flag APP_FLAG_TIMER w).
Proof.
  unfold handle_timer. intros Hst ->.
  now destruct (Z.eqb_spec (state (app_vars w)) APP_STATE_RX).
Qed.

Lemma timer_rx_diverges (fuel : nat) (w : world) :
  timer_rx fuel w = OutOfFuel.
Proof using LENGTH_CRC_range.
  unfold timer_rx. rewrite fill_loop_diverges; [reflexivity | lia |].
  cbn [with_vars app_vars set_packet_len packet_len bsp].
  rewrite u16_sizeof_packet. unfold LENGTH_PACKET. lia.
Qed.

Lemma handle_timer_rx_diverges (fuel : nat) (w : world) :
  state (app_vars w) = APP_STATE_RX -> flag_set APP_FLAG_TIMER w = true ->
  handle_timer fuel w = OutOfFuel.
Proof using LENGTH_CRC_range.
  unfold handle_timer. intros -> ->. simpl. now rewrite timer_rx_diverges.
Qed.

Lemma timer_rx_done (fuel : nat) (w w' : world) :
  timer_rx fuel w = Done w' ->
  exists p,
    w' = with_vars (set_state APP_STATE_TX)
           (bsp Bsp.radio_txNow
              (bsp Bsp.radio_txEnable
                 (bsp (Bsp.radio_loadPacket p (u16 sizeof_packet))
                    (with_vars (set_packet p)
                       (with_vars (set_packet_len (u16 sizeof_packet))
                          (bsp Bsp.radio_rfOff w)))))).
Proof.
  unfold timer_rx.
  destruct (fill_loop fuel 0 _) as [w1|] eqn:Hfill; [|discriminate].
  apply fill_loop_only_packet in Hfill as [p ->].
  intros [= <-]. now exists p.
Qed.

Lemma flags_load_handle_timer (fuel : nat) (w w' : world) :
  handle_timer fuel w = Done w' ->
  w' = w \/ flags_load w' = flags_load (clear_flag APP_FLAG_TIMER w).
Proof.
  unfold handle_timer. destruct (flag_set APP_FLAG_TIMER w).
  - destruct (state (app_vars w) =? APP_STATE_RX).
    + destruct (timer_rx fuel w) as [w1|] eqn:Hrx; [|discriminate].
      apply timer_rx_done in Hrx as [p ->]. intros [= <-]. now right.
    + intros [= <-]. now right.
  - intros [= <-]. now left.
Qed.

Lemma flag_set_handle_start_frame (j : Z) (w : world) :
  app_flag j -> j <> APP_FLAG_START_FRAME ->
  flag_set j (handle_start_frame w) = flag_set j w.
Proof.
  intros Hj Hne. unfold handle_start_frame.
  destruct (flag_set APP_FLAG_START_FRAME w); [| reflexivity].
  rewrite <- (flag_set_clear_other j APP_FLAG_START_FRAME w)
    by (unfold app_flag; auto).
  apply flag_set_ext.
  destruct (state (app_vars w) =? APP_STATE_RX); [reflexivity |].
  destruct (state (app_vars w) =? APP_STATE_TX); reflexivity.
Qed.

Lemma flag_set_handle_end_frame (j : Z) (w : world) :
  app_flag j -> j <> APP_FLAG_END_FRAME ->
  flag_set j (handle_end_frame w) = flag_set j w.
Proof.
  intros Hj Hne. unfold handle_end_frame.
  destruct (flag_set APP_FLAG_END_FRAME w); [| reflexivity].
  rewrite <- (flag_set_clear_other j APP_FLAG_END_FRAME w)
    by (unfold app_flag; auto).
  apply flag_set_ext.
  destruct (state (app_vars w) =? APP_STATE_RX).
  - unfold end_frame_rx, end_frame_rx_block, fetch_frame; cbn [run_block].
    now destruct (radio_getReceivedFrame _ _).
  - destruct (state (app_vars w) =? APP_STATE_TX); reflexivity.
Qed.

Lemma flag_set_handle_timer (j : Z) (fuel : nat) (w w' : world) :
  app_flag j -> j <> APP_FLAG_TIMER ->
  handle_timer fuel w = Done w' -> flag_set j w' = flag_set j w.
Proof.
  intros Hj Hne Hrun.
  destruct (flags_load_handle_timer _ _ _ Hrun) as [-> | Hfl]; [reflexivity |].
  rewrite (flag_set_ext j _ _ Hfl).
  apply flag_set_clear_other; unfold app_flag; auto.
Qed.

(** The mode across each block. *)
Lemma state_handle_start_frame (w : world) :
  state (app_vars (handle_start_frame w)) = state (app_vars w).
Proof.
  unfold handle_start_frame.
  destruct (flag_set APP_FLAG_START_FRAME w); [| reflexivity].
  destruct (state (app_vars w) =? APP_STATE_RX); [reflexivity |].
  destruct (state (app_vars w) =? APP_STATE_TX); reflexivity.
Qed.

Lemma state_handle_end_frame (w : world) :
  state (app_vars (handle_end_frame w)) =
  if flag_set APP_FLAG_END_FRAME w && (state (app_vars w) =? APP_STATE_TX)
  then APP_STATE_RX else state (app_vars w).
Proof.
  unfold handle_end_frame.
  destruct (flag_set APP_FLAG_END_FRAME w); [| reflexivity].
  destruct (state (app_vars w) =? APP_STATE_RX) eqn:Hrx.
  - apply Z.eqb_eq in Hrx. unfold end_frame_rx, end_frame_rx_block, fetch_frame; cbn [run_block].
    destruct (radio_getReceivedFrame _ _). cbn. now rewrite Hrx.
  - destruct (state (app_vars w) =? APP_STATE_TX); reflexivity.
Qed.

Lemma state_handle_timer (fuel : nat) (w w' : world) :
  handle_timer fuel w = Done w' ->
  state (app_vars w') =
  if flag_set APP_FLAG_TIMER w && (state (app_vars w) =? APP_STATE_RX)
  then APP_STATE_TX else state (app_vars w).
Proof.
  unfold handle_timer. destruct (flag_set APP_FLAG_TIMER w).
  - destruct (state (app_vars w) =? APP_STATE_RX).
    + destruct (timer_rx fuel w) as [w1|] eqn:Hrx; [|discriminate].
      apply timer_rx_done in Hrx as [p ->]. now intros [= <-].
    + now intros [= <-].
  - now intros [= <-].
Qed.

Lemma state_isr (q : irq) (w : world) :
  state (app_vars (isr q w)) = state (app_vars w).
Proof. now destruct q. Qed.

(** The declared length across each block. *)
Lemma packet_len_handle_start_frame (w : world) :
  packet_len (app_vars (handle_start_frame w)) = packet_len (app_vars w).
Proof.
  unfold handle_start_frame.
  destruct (flag_set APP_FLAG_START_FRAME w); [| reflexivity].
  destruct (state (app_vars w) =? APP_STATE_RX); [reflexivity |].
  destruct (state (app_vars w) =? APP_STATE_TX); reflexivity.
Qed.

Lemma packet_len_handle_end_frame (w : world) :
  packet_len (app_vars (handle_end_frame w)) = packet_len (app_vars w) \/
  packet_len (app_vars (handle_end_frame w)) = u16 sizeof_packet.
Proof.
  unfold handle_end_frame.
  destruct (flag_set APP_FLAG_END_FRAME w); [| now left].
  destruct (state (app_vars w) =? APP_STATE_RX).
  - right. unfold end_frame_rx, end_frame_rx_block, fetch_frame; cbn [run_block].
    now destruct (radio_getReceivedFrame _ _).
  - left. destruct (state (app_vars w) =? APP_STATE_TX); reflexivity.
Qed.

Lemma packet_len_handle_timer (fuel : nat) (w w' : world) :
  handle_timer fuel w = Done w' ->
  packet_len (app_vars w') = packet_len (app_vars w) \/
  packet_len (app_vars w') = u16 sizeof_packet.
Proof.
  unfold handle_timer. destruct (flag_set APP_FLAG_TIMER w).
  - destruct (state (app_vars w) =? APP_STATE_RX).
    + destruct (timer_rx fuel w) as [w1|] eqn:Hrx; [|discriminate].
      apply timer_rx_done in Hrx as [p ->]. intros [= <-]. now right.
    + intros [= <-]. now left.
  - intros [= <-]. now left.
Qed.

Lemma packet_len_isr (q : irq) (w : world) :
  packet_len (app_vars (isr q w)) = packet_len (app_vars w).
Proof. now destruct q. Qed.

(** ** The claims *)

(** C4. Handling TIMER_FIRED while the mode is TRANSMITTING ends at once,
    whatever the fuel, and its whole effect is the clearing of the
    APP_FLAG_TIMER bit: mode, frame buffer, buffer length, debug counters
    and the record of driver calls are those of before, and so are the
    two other flags. *)
Theorem timer_while_transmitting (fuel : nat) (w : world) :
  state (app_vars w) = APP_STATE_TX ->
  flag_set APP_FLAG_TIMER w = true ->
  exists w',
    handle_timer fuel w = Done w' /\
    w' = clear_flag APP_FLAG_TIMER w /\
    state (app_vars w') = APP_STATE_TX /\
    packet (app_vars w') = packet (app_vars w) /\
    packet_len (app_vars w') = packet_len (app_vars w) /\
    calls w' = calls w /\
    app_dbg w' = app_dbg w /\
    radio_frame w' = radio_frame w /\
    flag_set APP_FLAG_TIMER w' = false /\
    flag_set APP_FLAG_START_FRAME w' = flag_set APP_FLAG_START_FRAME w /\
    flag_set APP_FLAG_END_FRAME w' = flag_set APP_FLAG_END_FRAME w.
Proof.
  intros Hst Hflag. exists (clear_flag APP_FLAG_TIMER w).
  split; [apply handle_timer_not_rx; [rewrite Hst; discriminate | exact Hflag] |].
  repeat split; try assumption; flag_bits.
Qed.

(** C8. A block whose flag is clear leaves the whole state as it is, and
    the clearing done by a block, [flags &= ~k], leaves the flags of the
    other kinds as they are: for the clear operation itself and for each
    of the three blocks. *)
Theorem handling_is_per_kind (fuel : nat) (w : world) :
  (flag_set APP_FLAG_START_FRAME w = false -> handle_start_frame w = w) /\
  (flag_set APP_FLAG_END_FRAME w = false -> handle_end_frame w = w) /\
  (flag_set APP_FLAG_TIMER w = false -> handle_timer fuel w = Done w) /\
  (forall j k, app_flag j -> app_flag k -> j <> k ->
     flag_set j (clear_flag k w) = flag_set j w) /\
  (forall j, app_flag j -> j <> APP_FLAG_START_FRAME ->
     flag_set j (handle_start_frame w) = flag_set j w) /\
  (forall j, app_flag j -> j <> APP_FLAG_END_FRAME ->
     flag_set j (handle_end_frame w) = flag_set j w) /\
  (forall j w', app_flag j -> j <> APP_FLAG_TIMER ->
     handle_timer fuel w = Done w' -> flag_set j w' = flag_set j w).
Proof.
  split; [apply handle_start_frame_clear |].
  split; [apply handle_end_frame_clear |].
  split; [apply handle_timer_clear |].
  split; [intros j k; apply flag_set_clear_other |].
  split; [intros j; apply flag_set_handle_start_frame |].
  split; [intros j; apply flag_set_handle_end_frame |].
  intros j w' Hj Hne Hrun. now apply (flag_set_handle_timer j fuel w w').
Qed.

Lemma radio_getReceivedFrame_bound (frame buf : list Z) :
  0 <= (radio_getReceivedFrame frame buf).2 <= Z.of_nat (length buf) /\
  length (radio_getReceivedFrame frame buf).1 = length buf.
Proof.
  unfold radio_getReceivedFrame. cbn [fst snd].
  rewrite length_app, length_drop, length_take. lia.
Qed.

Lemma fetch_frame_calls (w : world) :
  calls (fetch_frame w) = calls w ++ [Bsp.radio_getReceivedFrame].
Proof. unfold fetch_frame. now destruct (radio_getReceivedFrame _ _). Qed.

(** C5. Handling FRAME_END while the mode is RECEIVING runs the three
    statements of lines 164-172 in program order. The fetch is one of
    them, and the world it starts from has the declared length at the
    capacity, the buffer still as it was and no driver call of the block
    made yet: the length is reset before the fetch. The frame of the
    radio is fetched into the buffer, the fetched length is at most the
    capacity, the indicator lit at the start of a received frame (the
    error LED) is switched off after the fetch, the mode stays RECEIVING
    and the flag is cleared. *)
Theorem end_frame_while_receiving (w : world) :
  state (app_vars w) = APP_STATE_RX ->
  flag_set APP_FLAG_END_FRAME w = true ->
  packet_sized w ->
  let fetched := radio_getReceivedFrame (radio_frame w) (packet (app_vars w)) in
  let w' := handle_end_frame w in
  w' = clear_flag APP_FLAG_END_FRAME (run_block end_frame_rx_block w) /\
  (exists i, end_frame_rx_block !! i = Some fetch_frame) /\
  (forall i w1,
     end_frame_rx_block !! i = Some fetch_frame ->
     block_states end_frame_rx_block w !! i = Some w1 ->
     packet_len (app_vars w1) = LENGTH_PACKET /\
     packet (app_vars w1) = packet (app_vars w) /\
     calls w1 = calls w) /\
  packet (app_vars w') = fetched.1 /\
  0 <= fetched.2 <= LENGTH_PACKET /\
  packet_sized w' /\
  calls w' = calls w ++ [Bsp.radio_getReceivedFrame; Bsp.leds_error_off] /\
  calls (handle_end_frame (handle_start_frame (raise_flag APP_FLAG_START_FRAME w))) =
    calls w ++ [Bsp.leds_error_on; Bsp.radio_getReceivedFrame; Bsp.leds_error_off] /\
  state (app_vars w') = APP_STATE_RX /\
  packet_len (app_vars w') = LENGTH_PACKET /\
  flag_set APP_FLAG_END_FRAME w' = false.
Proof using LENGTH_CRC_range.
  intros Hst Hflag Hsz fetched w'.
  set (w1 := with_vars (set_packet_len (u16 sizeof_packet)) w).
  assert (Hw' : w' = clear_flag APP_FLAG_END_FRAME
                       (bsp Bsp.leds_error_off (fetch_frame w1)))
    by (apply handle_end_frame_rx; assumption).
  destruct (radio_getReceivedFrame_bound (radio_frame w) (packet (app_vars w)))
    as [Hn Hbuf].
  fold fetched in Hn, Hbuf. unfold packet_sized in *.
  assert (Hfetch : fetch_frame w1 =
            bsp Bsp.radio_getReceivedFrame (with_vars (set_packet fetched.1) w1)).
  { unfold fetch_frame. subst w1 fetched. cbn [with_vars app_vars radio_frame
      set_packet_len packet]. now destruct (radio_getReceivedFrame _ _). }
  split; [exact Hw' |].
  split; [exists 1%nat; reflexivity |].
  split.
  { intros [|[|[|i]]] w0 Hstmt Hstate; cbn in Hstmt, Hstate.
    - exfalso. injection Hstmt as Hstmt.
      apply (f_equal (fun s : world -> world => length (calls (s w)))) in Hstmt.
      rewrite fetch_frame_calls, length_app in Hstmt. cbn in Hstmt. lia.
    - injection Hstate as <-.
      split; [apply u16_sizeof_packet |]. split; reflexivity.
    - exfalso. injection Hstmt as Hstmt.
      apply (f_equal (fun s : world -> world => calls (s w))) in Hstmt.
      rewrite fetch_frame_calls in Hstmt. cbn in Hstmt.
      apply app_inv_head in Hstmt. discriminate.
    - discriminate. }
  rewrite Hw', Hfetch.
  split; [reflexivity |].
  split; [rewrite <- Hsz; exact Hn |].
  split; [cbn; rewrite <- Hsz; now f_equal |].
  split; [cbn; now rewrite <- app_assoc |].
  split.
  - assert (Hst1 : state (app_vars (handle_start_frame
               (raise_flag APP_FLAG_START_FRAME w))) = APP_STATE_RX).
    { unfold handle_start_frame. rewrite flag_set_raise_same by (left; reflexivity).
      cbn. now rewrite Hst. }
    assert (Hfl1 : flag_set APP_FLAG_END_FRAME (handle_start_frame
               (raise_flag APP_FLAG_START_FRAME w)) = true).
    { unfold handle_start_frame. rewrite flag_set_raise_same by (left; reflexivity).
      cbn [raise_flag flags_store with_vars app_vars set_flags state].
      rewrite Hst. cbn [Z.eqb APP_STATE_RX Pos.eqb].
      rewrite <- Hflag. flag_bits. }
    rewrite (handle_end_frame_rx _ Hst1 Hfl1).
    unfold handle_start_frame. rewrite flag_set_raise_same by (left; reflexivity).
    cbn [raise_flag flags_store with_vars app_vars set_flags state].
    rewrite Hst. cbn [Z.eqb APP_STATE_RX Pos.eqb].
    unfold end_frame_rx, end_frame_rx_block, fetch_frame; cbn [run_block]. cbn.
    rewrite <- !app_assoc. reflexivity.
  - split; [exact Hst |].
    split; [apply u16_sizeof_packet |]. flag_bits.
Qed.

Lemma mote_step_packet_len (c c' : pc * world) :
  mote_step c c' ->
  packet_len (app_vars c'.2) = packet_len (app_vars c.2) \/
  packet_len (app_vars c'.2) = u16 sizeof_packet.
Proof.
  intros Hstep. destruct Hstep; cbn [snd]; try (now left).
  - left. apply packet_len_isr.
  - left. apply packet_len_handle_start_frame.
  - apply packet_len_handle_end_frame.
  - now apply (packet_len_handle_timer fuel).
Qed.

Lemma fill_loop_main_steps (fuel : nat) (i : Z) (w w' : world) :
  fill_loop fuel i w = Done w' ->
  main_reaches (AtFill i, w) (InLoop AtIdle, startup_finish w').
Proof using Type.
  clear LENGTH_CRC_range.
  revert i w. induction fuel as [|fuel IH]; intros i w; simpl;
    destruct (Z.ltb_spec i (packet_len (app_vars w))) as [Hlt|Hge];
    try discriminate.
  - intros [= <-]. apply rtc_once, main_fill_end. lia.
  - intros Hrun. eapply rtc_l; [apply main_fill; exact Hlt |].
    apply IH. exact Hrun.
  - intros [= <-]. apply rtc_once, main_fill_end. lia.
Qed.

Lemma startup_main_steps (fuel : nat) (w w0 : world) :
  mote_main_startup fuel w = Done w0 ->
  main_reaches (AtBoot, w) (InLoop AtIdle, w0).
Proof using Type.
  clear LENGTH_CRC_range.
  unfold mote_main_startup.
  destruct (fill_loop fuel 0 (startup_prepare w)) as [w1|] eqn:Hfill;
    [| discriminate].
  intros [= <-]. eapply rtc_l; [apply main_boot |].
  now apply (fill_loop_main_steps fuel).
Qed.

Lemma main_step_packet_len (c c' : main_pc * world) :
  main_step c c' ->
  (c.1 <> AtBoot -> packet_len (app_vars c.2) = u16 sizeof_packet) ->
  c'.1 <> AtBoot /\ packet_len (app_vars c'.2) = u16 sizeof_packet.
Proof using Type.
  clear LENGTH_CRC_range.
  intros Hstep.
  destruct Hstep as [w | i w Hlt | i w Hge | i q w Hq | p w p' w' Hstep];
    cbn [fst snd]; intros Hinv; (split; [discriminate |]).
  - reflexivity.
  - now apply Hinv.
  - now apply Hinv.
  - rewrite packet_len_isr. now apply Hinv.
  - destruct (mote_step_packet_len _ _ Hstep) as [Heq | Heq];
      cbn [snd] in Heq; rewrite Heq; [now apply Hinv | reflexivity].
Qed.

Lemma main_reaches_packet_len (c c' : main_pc * world) :
  main_reaches c c' ->
  (c.1 <> AtBoot -> packet_len (app_vars c.2) = u16 sizeof_packet) ->
  c'.1 <> AtBoot -> packet_len (app_vars c'.2) = u16 sizeof_packet.
Proof using Type.
  clear LENGTH_CRC_range.
  intros Hreach. induction Hreach as [c | c c1 c' Hstep _ IH]; [trivial |].
  intros Hinv. apply IH. intros _. now apply (main_step_packet_len c c1).
Qed.

(** C10. From the first line of [mote_main] on, every configuration past
    the startup assignment of line 98 has the declared length
    [packet_len] at the value of [sizeof(app_vars.packet)], the capacity
    [LENGTH_PACKET]: during the startup loop, in the state a startup
    that ends hands to the loop, and at every point of the loop, the
    idle wait included. The loop keeps it from any state that has it,
    and what the end-of-frame block leaves in the scalar fields of
    [app_vars] does not depend on the frame the radio held, so its
    length is stored nowhere. *)
Theorem packet_len_is_capacity :
  (forall w c, main_reaches (AtBoot, w) c -> c.1 <> AtBoot ->
     packet_len (app_vars c.2) = u16 sizeof_packet) /\
  (forall fuel w w0, mote_main_startup fuel w = Done w0 ->
     main_reaches (AtBoot, w) (InLoop AtIdle, w0) /\
     packet_len (app_vars w0) = u16 sizeof_packet) /\
  (forall c c', mote_reaches c c' ->
     packet_len (app_vars c.2) = u16 sizeof_packet ->
     packet_len (app_vars c'.2) = u16 sizeof_packet) /\
  (0 <= LENGTH_CRC <= 63492 ->
     u16 sizeof_packet = LENGTH_PACKET /\
     forall w c, main_reaches (AtBoot, w) c -> c.1 <> AtBoot ->
       packet_len (app_vars c.2) = LENGTH_PACKET) /\
  (forall w f g,
     let v := app_vars (handle_end_frame (radio_receives f w)) in
     let v' := app_vars (handle_end_frame (radio_receives g w)) in
     packet_len v = packet_len v' /\ flags v = flags v' /\ state v = state v' /\
     rxpk_rssi v = rxpk_rssi v' /\ rxpk_lqi v = rxpk_lqi v' /\
     rxpk_crc v = rxpk_crc v').
Proof using Type.
  clear LENGTH_CRC_range.
  assert (Hboot : forall w c, main_reaches (AtBoot, w) c -> c.1 <> AtBoot ->
            packet_len (app_vars c.2) = u16 sizeof_packet).
  { intros w c Hreach. apply (main_reaches_packet_len _ _ Hreach).
    intros Hne. now contradiction Hne. }
  split; [exact Hboot |].
  split.
  { intros fuel w w0 Hrun. apply startup_main_steps in Hrun.
    split; [exact Hrun |]. now apply (Hboot w (InLoop AtIdle, w0)). }
  split.
  { intros c c' Hreach. induction Hreach as [c | c c1 c' Hstep _ IH].
    - trivial.
    - intros Hc. apply IH.
      destruct (mote_step_packet_len _ _ Hstep) as [-> | ->];
        [exact Hc | reflexivity]. }
  split.
  { intros Hrange.
    assert (Hcap : u16 sizeof_packet = LENGTH_PACKET).
    { unfold u16, sizeof_packet, LENGTH_PACKET. apply Z.mod_small. lia. }
    split; [exact Hcap |]. intros w c Hreach Hne.
    rewrite <- Hcap. now apply (Hboot w c). }
  intros w f g. unfold handle_end_frame, flag_set, flags_load.
  cbn [radio_receives app_vars].
  destruct (negb (Z.land (flags (app_vars w)) APP_FLAG_END_FRAME =? 0));
    [| repeat split; reflexivity].
  destruct (state (app_vars w) =? APP_STATE_RX).
  - unfold end_frame_rx, end_frame_rx_block, fetch_frame; cbn [run_block].
    do 2 destruct (radio_getReceivedFrame _ _). repeat split; reflexivity.
  - destruct (state (app_vars w) =? APP_STATE_TX); repeat split; reflexivity.
Qed.

(** The part of the mode discipline that holds as written: a step of the
    loop changes the mode only in the end-of-frame block entered in mode
    TX (to RX) or in the timer block entered in mode RX (to TX). *)
Lemma mode_changes_only (c c' : pc * world) :
  mote_step c c' ->
  state (app_vars c'.2) <> state (app_vars c.2) ->
  (c.1 = AtEndFrame /\ flag_set APP_FLAG_END_FRAME c.2 = true /\
   state (app_vars c.2) = APP_STATE_TX /\ state (app_vars c'.2) = APP_STATE_RX) \/
  (c.1 = AtTimer /\ flag_set APP_FLAG_TIMER c.2 = true /\
   state (app_vars c.2) = APP_STATE_RX /\ state (app_vars c'.2) = APP_STATE_TX).
Proof.
  intros Hstep.
  destruct Hstep; cbn [fst snd radio_receives bsp app_vars]; try congruence.
  - now rewrite state_isr.
  - now rewrite state_handle_start_frame.
  - rewrite state_handle_end_frame.
    destruct (flag_set APP_FLAG_END_FRAME w); [| cbn; congruence].
    destruct (Z.eqb_spec (state (app_vars w)) APP_STATE_TX); [| cbn; congruence].
    intros _. left. auto.
  - rewrite (state_handle_timer fuel w w') by assumption.
    destruct (flag_set APP_FLAG_TIMER w); [| cbn; congruence].
    destruct (Z.eqb_spec (state (app_vars w)) APP_STATE_RX); [| cbn; congruence].
    intros _. right. auto.
Qed.

Lemma mote_step_stays_rx (c c' : pc * world) :
  mote_step c c' ->
  state (app_vars c.2) = APP_STATE_RX -> state (app_vars c'.2) = APP_STATE_RX.
Proof using LENGTH_CRC_range.
  intros Hstep.
  destruct Hstep as [p q w | p f w | w Hf | w Hf | w Hf | w Hf | w | w
                    | fuel w w' Hrun];
    cbn [snd radio_receives bsp app_vars]; intros Hrx; try assumption.
  - now rewrite state_isr.
  - now rewrite state_handle_start_frame.
  - rewrite state_handle_end_frame, Hrx. destruct (_ && _); reflexivity.
  - destruct (flag_set APP_FLAG_TIMER w) eqn:Hfl.
    + rewrite handle_timer_rx_diverges in Hrun by assumption. discriminate.
    + rewrite handle_timer_clear in Hrun by assumption. now injection Hrun as <-.
Qed.

(** C1, as the code has it. The timer block entered in mode RECEIVING
    never ends (its fill loop counts in a [uint8_t] up to a bound of at
    least 2043), so the mode never becomes TRANSMITTING: every state the
    loop reaches from mode RECEIVING is in mode RECEIVING. *)
Theorem mode_stays_receiving (c c' : pc * world) :
  mote_reaches c c' ->
  state (app_vars c.2) = APP_STATE_RX ->
  state (app_vars c'.2) = APP_STATE_RX.
Proof using LENGTH_CRC_range.
  intros Hreach. induction Hreach as [c | c c1 c' Hstep _ IH]; [trivial |].
  intros Hrx. apply IH. now apply (mote_step_stays_rx c).
Qed.

(** The loop never writes beyond index 255 and its test never fails. *)
Lemma fill_step_iter (n : nat) (w : world) :
  let s := Nat.iter n fill_step (0, w) in
  0 <= s.1 < 256 /\
  packet_len (app_vars s.2) = packet_len (app_vars w) /\
  forall k, (256 <= k)%nat ->
    packet (app_vars s.2) !! k = packet (app_vars w) !! k.
Proof.
  induction n as [|n IH]; cbn zeta.
  - cbn. repeat split; lia.
  - cbn zeta in IH. destruct IH as (Hi & Hlen & Hk).
    rewrite Nat.iter_succ. set (s := Nat.iter n fill_step (0, w)) in *.
    unfold fill_step. cbn [fst snd with_vars app_vars set_packet packet packet_len].
    split; [apply u8_range |]. split; [exact Hlen |].
    intros k Hge. rewrite list_lookup_insert_ne by lia. now apply Hk.
Qed.

Lemma fill_loop_unfold (fuel : nat) (i : Z) (w : world) :
  fill_loop (S fuel) i w =
  if i <? packet_len (app_vars w)
  then fill_loop fuel (fill_step (i, w)).1 (fill_step (i, w)).2
  else Done w.
Proof. reflexivity. Qed.

Lemma flag_set_nonzero (k : Z) (w : world) :
  flag_set k w = true -> flags_load w <> 0.
Proof.
  unfold flag_set. intros Hk Hz. rewrite Hz, Z.land_0_l in Hk. discriminate.
Qed.

Lemma drain_pass_timer_rx (fuel : nat) (w : world) :
  timer_meets_rx w = true -> drain_pass fuel w = OutOfFuel.
Proof using LENGTH_CRC_range.
  unfold timer_meets_rx, drain_pass. intros Hmeet.
  apply andb_true_iff in Hmeet as [Htimer Hmode].
  apply handle_timer_rx_diverges.
  - rewrite state_handle_end_frame, state_handle_start_frame.
    rewrite flag_set_handle_start_frame by flag_kind.
    apply orb_true_iff in Hmode as [Hrx | Htx].
    + apply Z.eqb_eq in Hrx. rewrite Hrx. destruct (_ && _); reflexivity.
    + apply andb_true_iff in Htx as [Htx Hend]. now rewrite Htx, Hend.
  - now rewrite flag_set_handle_end_frame, flag_set_handle_start_frame
      by flag_kind.
Qed.

Lemma drain_loop_idle (fuel : nat) (w : world) :
  flags_load w = 0 -> drain_loop fuel w = Done w.
Proof. intros Hz. destruct fuel; simpl; now rewrite Hz. Qed.

Lemma flags_load_handle_start_frame (w : world) :
  handle_start_frame w = w \/
  flags_load (handle_start_frame w) =
  flags_load (clear_flag APP_FLAG_START_FRAME w).
Proof.
  unfold handle_start_frame.
  destruct (flag_set APP_FLAG_START_FRAME w); [right | now left].
  destruct (state (app_vars w) =? APP_STATE_RX); [reflexivity |].
  destruct (state (app_vars w) =? APP_STATE_TX); reflexivity.
Qed.

Lemma flags_load_handle_end_frame (w : world) :
  handle_end_frame w = w \/
  flags_load (handle_end_frame w) =
  flags_load (clear_flag APP_FLAG_END_FRAME w).
Proof.
  unfold handle_end_frame.
  destruct (flag_set APP_FLAG_END_FRAME w); [right | now left].
  destruct (state (app_vars w) =? APP_STATE_RX).
  - unfold end_frame_rx, end_frame_rx_block, fetch_frame; cbn [run_block]. now destruct (radio_getReceivedFrame _ _).
  - destruct (state (app_vars w) =? APP_STATE_TX); reflexivity.
Qed.

Lemma handle_start_frame_handled (w : world) :
  flag_set APP_FLAG_START_FRAME (handle_start_frame w) = false.
Proof.
  destruct (flag_set APP_FLAG_START_FRAME w) eqn:Hfl.
  - unfold handle_start_frame. rewrite Hfl. apply flag_set_clear_same. flag_kind.
  - now rewrite handle_start_frame_clear.
Qed.

Lemma handle_end_frame_handled (w : world) :
  flag_set APP_FLAG_END_FRAME (handle_end_frame w) = false.
Proof.
  destruct (flag_set APP_FLAG_END_FRAME w) eqn:Hfl.
  - unfold handle_end_frame. rewrite Hfl. apply flag_set_clear_same. flag_kind.
  - now rewrite handle_end_frame_clear.
Qed.

Lemma handle_timer_handled (fuel : nat) (w w' : world) :
  handle_timer fuel w = Done w' -> flag_set APP_FLAG_TIMER w' = false.
Proof.
  intros Hrun. destruct (flag_set APP_FLAG_TIMER w) eqn:Hfl.
  - unfold handle_timer in Hrun. rewrite Hfl in Hrun.
    destruct (state (app_vars w) =? APP_STATE_RX).
    + destruct (timer_rx fuel w) as [w1|]; [| discriminate].
      injection Hrun as <-. apply flag_set_clear_same. flag_kind.
    + injection Hrun as <-. apply flag_set_clear_same. flag_kind.
  - rewrite handle_timer_clear in Hrun by assumption. now injection Hrun as <-.
Qed.

Lemma clear_flag_small (k : Z) (w : world) :
  app_flag k -> 0 <= flags_load w < 8 -> 0 <= flags_load (clear_flag k w) < 8.
Proof.
  unfold clear_flag, flags_store, flags_load. cbn [with_vars app_vars set_flags flags].
  generalize (flags (app_vars w)). intros f Hk Hf.
  assert (Hcases : f = 0 \/ f = 1 \/ f = 2 \/ f = 3 \/ f = 4 \/ f = 5 \/
                   f = 6 \/ f = 7) by lia.
  destruct Hk as [-> | [-> | ->]];
    destruct Hcases as [-> | [-> | [-> | [-> | [-> | [-> | [-> | ->]]]]]]];
    vm_compute; split; congruence.
Qed.

Lemma no_flag_set (w : world) :
  0 <= flags_load w < 8 ->
  flag_set APP_FLAG_START_FRAME w = false ->
  flag_set APP_FLAG_END_FRAME w = false ->
  flag_set APP_FLAG_TIMER w = false ->
  flags_load w = 0.
Proof.
  unfold flag_set. generalize (flags_load w). intros f Hf.
  assert (Hcases : f = 0 \/ f = 1 \/ f = 2 \/ f = 3 \/ f = 4 \/ f = 5 \/
                   f = 6 \/ f = 7) by lia.
  destruct Hcases as [-> | [-> | [-> | [-> | [-> | [-> | [-> | ->]]]]]]];
    vm_compute; congruence.
Qed.

(** Without an interrupt in between and unless the timer block meets
    mode RX, one pass handles every pending flag of the three kinds and
    the drain loop ends after it with no flag left. *)
Lemma drain_loop_one_pass (fuel : nat) (w : world) :
  0 < flags_load w < 8 -> timer_meets_rx w = false ->
  exists w',
    drain_pass fuel w = Done w' /\ flags_load w' = 0 /\
    drain_loop (S fuel) w = Done w'.
Proof.
  intros Hf Hmeet.
  set (w1 := handle_start_frame w). set (w2 := handle_end_frame w1).
  assert (Hf1 : 0 <= flags_load w1 < 8).
  { subst w1. destruct (flags_load_handle_start_frame w) as [-> | ->];
      [lia | apply clear_flag_small; [flag_kind | lia]]. }
  assert (Hf2 : 0 <= flags_load w2 < 8).
  { subst w2. destruct (flags_load_handle_end_frame w1) as [-> | ->];
      [lia | apply clear_flag_small; [flag_kind | lia]]. }
  assert (Hrun : exists w', handle_timer fuel w2 = Done w').
  { destruct (flag_set APP_FLAG_TIMER w2) eqn:Hfl.
    - eexists. apply handle_timer_not_rx; [| exact Hfl].
      subst w2 w1. unfold timer_meets_rx in Hmeet.
      rewrite flag_set_handle_end_frame, flag_set_handle_start_frame in Hfl
        by flag_kind.
      rewrite Hfl in Hmeet. cbn [andb] in Hmeet.
      apply orb_false_iff in Hmeet as [Hrx Htx].
      rewrite state_handle_end_frame, state_handle_start_frame.
      rewrite flag_set_handle_start_frame by flag_kind.
      rewrite andb_comm, Htx. now apply Z.eqb_neq.
    - eexists. now apply handle_timer_clear. }
  destruct Hrun as [w' Hrun].
  assert (Hz : flags_load w' = 0).
  { apply no_flag_set.
    - destruct (flags_load_handle_timer _ _ _ Hrun) as [-> | ->];
        [lia | apply clear_flag_small; [flag_kind | lia]].
    - rewrite (flag_set_handle_timer APP_FLAG_START_FRAME fuel w2 w')
        by flag_kind.
      subst w2. rewrite flag_set_handle_end_frame by flag_kind.
      apply handle_start_frame_handled.
    - rewrite (flag_set_handle_timer APP_FLAG_END_FRAME fuel w2 w')
        by flag_kind.
      apply handle_end_frame_handled.
    - now apply (handle_timer_handled fuel w2). }
  exists w'. split; [exact Hrun |]. split; [exact Hz |].
  simpl. destruct (Z.eqb_spec (flags_load w) 0); [lia |].
  unfold drain_pass. fold w1 w2. rewrite Hrun. now apply drain_loop_idle.
Qed.

(** C2, as the code has it. From mode RECEIVING with the timer flag set
    the pass switches the radio off and enters the fill loop, which never
    ends: the pass returns for no amount of fuel, so nothing is loaded or
    transmitted and the mode is never set to TRANSMITTING. At every
    iteration the loop test holds, and no byte at index 256 or beyond is
    ever written. *)
Theorem timer_while_receiving_never_transmits (fuel : nat) (w : world) :
  state (app_vars w) = APP_STATE_RX ->
  flag_set APP_FLAG_TIMER w = true ->
  drain_pass fuel w = OutOfFuel /\
  handle_timer fuel w = OutOfFuel /\
  forall n k, (256 <= k)%nat ->
    let s := Nat.iter n fill_step
               (0, with_vars (set_packet_len (u16 sizeof_packet))
                     (bsp Bsp.radio_rfOff w)) in
    s.1 < packet_len (app_vars s.2) /\
    packet (app_vars s.2) !! k = packet (app_vars w) !! k.
Proof using LENGTH_CRC_range.
  intros Hrx Htimer. split; [| split].
  - apply drain_pass_timer_rx. unfold timer_meets_rx.
    rewrite Htimer, Hrx. reflexivity.
  - now apply handle_timer_rx_diverges.
  - intros n k Hk.
    destruct (fill_step_iter n (with_vars (set_packet_len (u16 sizeof_packet))
                                  (bsp Bsp.radio_rfOff w))) as (Hi & Hlen & Hbytes).
    cbn zeta. split.
    + apply (Z.lt_le_trans _ 256); [apply Hi |].
      rewrite Hlen. cbn [with_vars app_vars set_packet_len packet_len bsp].
      rewrite u16_sizeof_packet. unfold LENGTH_PACKET. lia.
    + now rewrite Hbytes.
Qed.

(** C6, as the code has it. The startup does not reach [while (1)]: after
    the callbacks are registered and [packet_len] is set, the fill loop of
    lines 99-101 never ends, so the timer is never scheduled, the radio
    never switched on and the mode never set. *)
Theorem startup_never_ends (fuel : nat) (w : world) :
  mote_main_startup fuel w = OutOfFuel.
Proof using LENGTH_CRC_range.
  unfold mote_main_startup. rewrite fill_loop_diverges; [reflexivity | lia |].
  cbn. rewrite u16_sizeof_packet. unfold LENGTH_PACKET. lia.
Qed.

(** C3, as the code has it. When the timer block meets mode RECEIVING in
    a pass, the drain loop never returns to the idle wait and the timer
    flag is never cleared. *)
Theorem drain_loop_timer_rx_never_ends (fuel : nat) (w : world) :
  timer_meets_rx w = true -> drain_loop fuel w = OutOfFuel.
Proof using LENGTH_CRC_range.
  intros Hmeet.
  assert (Hnz : flags_load w <> 0).
  { apply (flag_set_nonzero APP_FLAG_TIMER).
    unfold timer_meets_rx in Hmeet. now apply andb_true_iff in Hmeet as [? _]. }
  destruct fuel as [|fuel]; simpl;
    destruct (Z.eqb_spec (flags_load w) 0); try contradiction; [reflexivity |].
  now rewrite drain_pass_timer_rx.
Qed.

(** C7, amended. The clear is a plain load, and, store of the flags word.
    A notification that raises the flag [j] between the load and the
    store of a clear of another flag [k] is overwritten by the store: the
    word ends as if the notification had not come, and [j] is set after
    it only if it was set before. A notification that comes before the
    load or after the store is kept, and [k] is cleared. *)
Theorem clear_flag_is_not_atomic (q : irq) (j k : Z) (w : world) :
  irq_flag q = Some j -> app_flag k -> j <> k ->
  flags_load (clear_flag_interrupted k q w) = flags_load (clear_flag k w) /\
  flag_set j (clear_flag_interrupted k q w) = flag_set j w /\
  flag_set j (clear_flag k (isr q w)) = true /\
  flag_set k (clear_flag k (isr q w)) = false /\
  flag_set j (isr q (clear_flag k w)) = true.
Proof.
  intros Hq Hk Hne.
  assert (Hj : app_flag j).
  { destruct q; cbn in Hq; try discriminate; injection Hq as <-; flag_kind. }
  assert (Hisr : forall w0, flags_load (isr q w0) = flags_load (raise_flag j w0)).
  { intros w0. destruct q; cbn in Hq; try discriminate; injection Hq as <-;
      reflexivity. }
  split; [reflexivity |].
  split.
  { rewrite <- (flag_set_clear_other j k w) by assumption.
    apply flag_set_ext. reflexivity. }
  split.
  { rewrite (flag_set_ext j (clear_flag k (isr q w))
               (clear_flag k (raise_flag j w))).
    - rewrite flag_set_clear_other by assumption.
      now apply flag_set_raise_same.
    - unfold clear_flag, flags_store, flags_load at 1 3.
      cbn [with_vars app_vars set_flags flags]. fold (flags_load (isr q w)).
      fold (flags_load (raise_flag j w)). now rewrite Hisr. }
  split.
  { now apply flag_set_clear_same. }
  rewrite (flag_set_ext j _ _ (Hisr _)). now apply flag_set_raise_same.
Qed.

Lemma app_dbg_handle_start_frame (w : world) :
  app_dbg (handle_start_frame w) = app_dbg w.
Proof.
  unfold handle_start_frame.
  destruct (flag_set APP_FLAG_START_FRAME w); [| reflexivity].
  destruct (state (app_vars w) =? APP_STATE_RX); [reflexivity |].
  destruct (state (app_vars w) =? APP_STATE_TX); reflexivity.
Qed.

Lemma app_dbg_handle_end_frame (w : world) :
  app_dbg (handle_end_frame w) = app_dbg w.
Proof.
  unfold handle_end_frame.
  destruct (flag_set APP_FLAG_END_FRAME w); [| reflexivity].
  destruct (state (app_vars w) =? APP_STATE_RX).
  - unfold end_frame_rx, end_frame_rx_block, fetch_frame; cbn [run_block]. now destruct (radio_getReceivedFrame _ _).
  - destruct (state (app_vars w) =? APP_STATE_TX); reflexivity.
Qed.

Lemma app_dbg_handle_timer (fuel : nat) (w w' : world) :
  handle_timer fuel w = Done w' -> app_dbg w' = app_dbg w.
Proof.
  unfold handle_timer. destruct (flag_set APP_FLAG_TIMER w).
  - destruct (state (app_vars w) =? APP_STATE_RX).
    + destruct (timer_rx fuel w) as [w1|] eqn:Hrx; [|discriminate].
      apply timer_rx_done in Hrx as [p ->]. now intros [= <-].
    + now intros [= <-].
  - now intros [= <-].
Qed.

(** C9, amended. A notification stores in its own counter the value plus
    one modulo 256 (the counters are [uint8_t]) and leaves the four
    others alone: a counter from 0 to 254 goes up by exactly one, a
    counter at 255 goes back to 0. The blocks of the loop and the other
    moves of the system do not write the counters. *)
Theorem debug_counters_count_modulo_256 (q : irq) (w : world) :
  let c := irq_counter q in
  let n := read_counter c (app_dbg w) in
  let n' := read_counter c (app_dbg (isr q w)) in
  n' = u8 (n + 1) /\
  (0 <= n < 255 -> n' = n + 1) /\
  (n = 255 -> n' = 0) /\
  (forall c', c' <> c ->
     read_counter c' (app_dbg (isr q w)) = read_counter c' (app_dbg w)) /\
  (forall p p' w', mote_step (p, w) (p', w') ->
     app_dbg w' = app_dbg w \/ exists q', w' = isr q' w).
Proof.
  cbn zeta.
  split; [now destruct q |].
  split.
  { intros Hn. transitivity (u8 (read_counter (irq_counter q) (app_dbg w) + 1));
      [now destruct q |]. unfold u8. apply Z.mod_small. lia. }
  split.
  { intros Hn. transitivity (u8 (read_counter (irq_counter q) (app_dbg w) + 1));
      [now destruct q |]. now rewrite Hn. }
  split.
  { intros c' Hc'. destruct q, c'; try reflexivity; now contradiction Hc'. }
  intros p p' w' Hstep. inversion Hstep; subst; try (now left).
  - right. now eexists.
  - left. apply app_dbg_handle_start_frame.
  - left. apply app_dbg_handle_end_frame.
  - left. now apply (app_dbg_handle_timer fuel).
Qed.

(** ** Further properties of the blocks and the callbacks *)

Lemma fill_loop_ends (fuel : nat) (i : Z) (w : world) :
  0 <= i -> packet_len (app_vars w) <= 255 ->
  (Z.to_nat (packet_len (app_vars w) - i) <= fuel)%nat ->
  exists w', fill_loop fuel i w = Done w'.
Proof.
  revert i w. induction fuel as [|fuel IH]; intros i w Hi Hlen Hfuel; simpl;
    destruct (Z.ltb_spec i (packet_len (app_vars w))) as [Hlt|Hge];
    try (now eexists); [lia |].
  apply IH; cbn [with_vars app_vars set_packet packet_len];
    unfold u8; rewrite ?Z.mod_small by lia; lia.
Qed.

(** The fill loop ends exactly when its bound is within the range of its
    [uint8_t] counter. *)
Theorem fill_loop_ends_iff (w : world) :
  (exists fuel w', fill_loop fuel 0 w = Done w') <->
  packet_len (app_vars w) <= 255.
Proof.
  split.
  - intros (fuel & w' & Hrun).
    destruct (Z.le_gt_cases (packet_len (app_vars w)) 255) as [Hle|Hgt];
      [exact Hle |].
    rewrite fill_loop_diverges in Hrun by lia. discriminate.
  - intros Hle. exists (Z.to_nat (packet_len (app_vars w))).
    apply fill_loop_ends; lia.
Qed.

(** What the loop has done after [n] iterations, whether it ends or not:
    the counter is [n] modulo 256, the bytes below [n] and below 256 are
    [ID], and the bytes from [n] on are untouched. *)
Theorem fill_step_progress (n : nat) (w : world) :
  let s := Nat.iter n fill_step (0, w) in
  s.1 = Z.of_nat n mod 256 /\
  length (packet (app_vars s.2)) = length (packet (app_vars w)) /\
  (forall k, (k < n)%nat -> (k < 256)%nat ->
     (k < length (packet (app_vars w)))%nat ->
     packet (app_vars s.2) !! k = Some ID) /\
  (forall k, (n <= k)%nat ->
     packet (app_vars s.2) !! k = packet (app_vars w) !! k).
Proof.
  induction n as [|n IH]; cbn zeta.
  - cbn. repeat split; intros; lia || reflexivity.
  - cbn zeta in IH. destruct IH as (Hi & Hsz & Hfilled & Hrest).
    rewrite Nat.iter_succ. set (s := Nat.iter n fill_step (0, w)) in *.
    unfold fill_step.
    cbn [fst snd with_vars app_vars set_packet packet packet_len].
    assert (Hidx : (Z.to_nat s.1 <= n)%nat /\ (Z.to_nat s.1 < 256)%nat /\
                   ((n < 256)%nat -> Z.to_nat s.1 = n)).
    { rewrite Hi. pose proof (Z.mod_pos_bound (Z.of_nat n) 256 ltac:(lia)).
      pose proof (Z.mod_le (Z.of_nat n) 256 ltac:(lia) ltac:(lia)).
      repeat split; try lia. intros Hn. rewrite Z.mod_small by lia. lia. }
    destruct Hidx as (Hle & Hlt & Heq).
    split.
    { rewrite Hi. unfold u8. rewrite Zplus_mod_idemp_l. f_equal. lia. }
    split; [now rewrite length_insert |].
    split.
    + intros k Hk Hk256 Hklen.
      destruct (Nat.eq_dec (Z.to_nat s.1) k) as [<- | Hne].
      * apply list_lookup_insert_eq. lia.
      * rewrite list_lookup_insert_ne by exact Hne. apply Hfilled; lia.
    + intros k Hk. rewrite list_lookup_insert_ne by lia. apply Hrest. lia.
Qed.

Lemma u8_lor_u8 (x k : Z) : u8 (Z.lor (u8 x) k) = u8 (Z.lor x k).
Proof.
  unfold u8. rewrite <- !Z.land_ones by lia.
  apply Z.bits_inj'. intros n Hn.
  rewrite !Z.land_spec, !Z.lor_spec, Z.land_spec.
  destruct (Z.testbit x n), (Z.testbit k n), (Z.testbit (Z.ones 8) n);
    reflexivity.
Qed.

Lemma flags_load_isr (q : irq) (w : world) :
  flags_load (isr q w) =
  match irq_flag q with
  | Some k => u8 (Z.lor (flags_load w) k)
  | None => flags_load w
  end.
Proof. now destruct q. Qed.

(** A notification records its kind in the flags word once: a second one
    of the same kind before the loop has cleared the flag leaves the word
    as it is. It sets its own flag, leaves the two others, and writes no
    other field of [app_vars] nor the frame of the radio; the two
    radio-timer notifications leave [app_vars] as a whole. *)
Theorem notification_recorded_once (q : irq) (w : world) :
  flags_load (isr q (isr q w)) = flags_load (isr q w) /\
  (forall k, irq_flag q = Some k ->
     flag_set k (isr q w) = true /\
     forall j, app_flag j -> j <> k -> flag_set j (isr q w) = flag_set j w) /\
  (irq_flag q = None -> app_vars (isr q w) = app_vars w) /\
  set_flags (flags_load w) (app_vars (isr q w)) = app_vars w /\
  radio_frame (isr q w) = radio_frame w.
Proof.
  split.
  { rewrite !flags_load_isr. destruct (irq_flag q) as [k|]; [| reflexivity].
    rewrite u8_lor_u8. f_equal. rewrite <- Z.lor_assoc. now rewrite Z.lor_diag. }
  split.
  { intros k Hq.
    assert (Hk : app_flag k)
      by (destruct q; cbn in Hq; try discriminate; injection Hq as <-; flag_kind).
    assert (Hfl : flags_load (isr q w) = flags_load (raise_flag k w))
      by (rewrite flags_load_isr, Hq; reflexivity).
    split.
    - rewrite (flag_set_ext k _ _ Hfl). now apply flag_set_raise_same.
    - intros j Hj Hne. rewrite (flag_set_ext j _ _ Hfl).
      now apply flag_set_raise_other. }
  split; [destruct q; (discriminate || reflexivity) |].
  split; destruct q, w as [[]]; reflexivity.
Qed.

Lemma read_counter_isr (q : irq) (w : world) :
  read_counter (irq_counter q) (app_dbg (isr q w)) =
  u8 (read_counter (irq_counter q) (app_dbg w) + 1).
Proof. now destruct q. Qed.

(** After [n] notifications of one kind its counter holds the count
    modulo 256. *)
Theorem debug_counter_after (q : irq) (n : nat) (w : world) :
  0 <= read_counter (irq_counter q) (app_dbg w) < 256 ->
  read_counter (irq_counter q) (app_dbg (Nat.iter n (isr q) w)) =
  (read_counter (irq_counter q) (app_dbg w) + Z.of_nat n) mod 256.
Proof.
  intros Hc. induction n as [|n IH].
  - cbn [Nat.iter]. rewrite Z.add_0_r, Z.mod_small by lia. reflexivity.
  - rewrite Nat.iter_succ, read_counter_isr, IH. unfold u8.
    rewrite Zplus_mod_idemp_l. f_equal. lia.
Qed.

(** ** Invariants of the loop *)

Lemma raise_flag_small (k : Z) (w : world) :
  app_flag k -> 0 <= flags_load w < 8 -> 0 <= flags_load (raise_flag k w) < 8.
Proof.
  unfold raise_flag, flags_store, flags_load. cbn [with_vars app_vars set_flags flags].
  generalize (flags (app_vars w)). intros f Hk Hf.
  assert (Hcases : f = 0 \/ f = 1 \/ f = 2 \/ f = 3 \/ f = 4 \/ f = 5 \/
                   f = 6 \/ f = 7) by lia.
  destruct Hk as [-> | [-> | ->]];
    destruct Hcases as [-> | [-> | [-> | [-> | [-> | [-> | [-> | ->]]]]]]];
    vm_compute; split; congruence.
Qed.

Lemma mote_step_flags_small (c c' : pc * world) :
  mote_step c c' ->
  0 <= flags_load c.2 < 8 -> 0 <= flags_load c'.2 < 8.
Proof.
  intros Hstep.
  destruct Hstep as [p q w | p f w | w Hf | w Hf | w Hf | w Hf | w | w
                    | fuel w w' Hrun];
    cbn [snd]; intros Hsmall; try exact Hsmall.
  - rewrite flags_load_isr. destruct (irq_flag q) as [k|] eqn:Hq; [| exact Hsmall].
    apply (raise_flag_small k w); [| exact Hsmall].
    destruct q; cbn in Hq; try discriminate; injection Hq as <-; flag_kind.
  - destruct (flags_load_handle_start_frame w) as [-> | ->];
      [exact Hsmall | apply clear_flag_small; [flag_kind | exact Hsmall]].
  - destruct (flags_load_handle_end_frame w) as [-> | ->];
      [exact Hsmall | apply clear_flag_small; [flag_kind | exact Hsmall]].
  - destruct (flags_load_handle_timer _ _ _ Hrun) as [-> | ->];
      [exact Hsmall | apply clear_flag_small; [flag_kind | exact Hsmall]].
Qed.

(** The flags word never holds a bit other than the three flags: a word
    below 8 stays below 8 through every notification and every block. *)
Theorem flags_stay_small (c c' : pc * world) :
  mote_reaches c c' ->
  0 <= flags_load c.2 < 8 -> 0 <= flags_load c'.2 < 8.
Proof.
  intros Hreach. induction Hreach as [c | c c1 c' Hstep _ IH]; [trivial |].
  intros Hsmall. apply IH. now apply (mote_step_flags_small c).
Qed.

Lemma mote_step_mode (c c' : pc * world) :
  mote_step c c' ->
  state (app_vars c.2) = APP_STATE_TX \/ state (app_vars c.2) = APP_STATE_RX ->
  state (app_vars c'.2) = APP_STATE_TX \/ state (app_vars c'.2) = APP_STATE_RX.
Proof.
  intros Hstep.
  destruct Hstep as [p q w | p f w | w Hf | w Hf | w Hf | w Hf | w | w
                    | fuel w w' Hrun];
    cbn [snd radio_receives bsp app_vars]; intros Hmode; try exact Hmode.
  - now rewrite state_isr.
  - now rewrite state_handle_start_frame.
  - rewrite state_handle_end_frame. destruct (_ && _); [now right | exact Hmode].
  - rewrite (state_handle_timer fuel w w' Hrun).
    destruct (_ && _); [now left | exact Hmode].
Qed.

(** Once the mode is one of the two enumerators it remains one of them:
    no notification and no block stores any other value. *)
Theorem mode_stays_tx_or_rx (c c' : pc * world) :
  mote_reaches c c' ->
  state (app_vars c.2) = APP_STATE_TX \/ state (app_vars c.2) = APP_STATE_RX ->
  state (app_vars c'.2) = APP_STATE_TX \/ state (app_vars c'.2) = APP_STATE_RX.
Proof.
  intros Hreach. induction Hreach as [c | c c1 c' Hstep _ IH]; [trivial |].
  intros Hmode. apply IH. now apply (mote_step_mode c).
Qed.

(** The frame buffer is written in mode RX only, by the end-of-frame
    block or by the timer block: no notification, no other block and no
    step in another mode changes a byte of it. *)
Theorem packet_written_only_in_rx (c c' : pc * world) :
  mote_step c c' ->
  packet (app_vars c'.2) <> packet (app_vars c.2) ->
  state (app_vars c.2) = APP_STATE_RX /\
  ((c.1 = AtEndFrame /\ flag_set APP_FLAG_END_FRAME c.2 = true) \/
   (c.1 = AtTimer /\ flag_set APP_FLAG_TIMER c.2 = true)).
Proof.
  intros Hstep.
  destruct Hstep as [p q w | p f w | w Hf | w Hf | w Hf | w Hf | w | w
                    | fuel w w' Hrun];
    cbn [fst snd radio_receives bsp app_vars]; try congruence.
  - intros Hne. exfalso. apply Hne. now destruct q.
  - intros Hne. exfalso. apply Hne. unfold handle_start_frame.
    destruct (flag_set APP_FLAG_START_FRAME w); [| reflexivity].
    destruct (state (app_vars w) =? APP_STATE_RX); [reflexivity |].
    destruct (state (app_vars w) =? APP_STATE_TX); reflexivity.
  - unfold handle_end_frame.
    destruct (flag_set APP_FLAG_END_FRAME w); [| congruence].
    destruct (Z.eqb_spec (state (app_vars w)) APP_STATE_RX) as [Hrx|Hrx];
      [auto |].
    intros Hne. exfalso. apply Hne.
    destruct (state (app_vars w) =? APP_STATE_TX); reflexivity.
  - unfold handle_timer in Hrun.
    destruct (flag_set APP_FLAG_TIMER w); [| injection Hrun as <-; congruence].
    destruct (Z.eqb_spec (state (app_vars w)) APP_STATE_RX) as [Hrx|Hrx];
      [auto |].
    injection Hrun as <-. intros Hne. exfalso. now apply Hne.
Qed.

(** In a mode that is neither enumerator (0 after the [memset]) the
    [switch] statements have no case and the timer block no branch: each
    block consumes its flag and does nothing else. *)
Theorem blocks_in_no_mode (fuel : nat) (w : world) :
  state (app_vars w) <> APP_STATE_RX ->
  state (app_vars w) <> APP_STATE_TX ->
  (flag_set APP_FLAG_START_FRAME w = true ->
     handle_start_frame w = clear_flag APP_FLAG_START_FRAME w) /\
  (flag_set APP_FLAG_END_FRAME w = true ->
     handle_end_frame w = clear_flag APP_FLAG_END_FRAME w) /\
  (flag_set APP_FLAG_TIMER w = true ->
     handle_timer fuel w = Done (clear_flag APP_FLAG_TIMER w)).
Proof.
  intros Hrx Htx. apply Z.eqb_neq in Hrx as Hrx', Htx as Htx'.
  unfold handle_start_frame, handle_end_frame.
  rewrite Hrx', Htx'.
  split; [now intros -> |]. split; [now intros -> |].
  intros Hfl. now apply handle_timer_not_rx.
Qed.

Lemma testbit_clear_flag (k b : Z) (w : world) :
  app_flag k -> 3 <= b < 8 ->
  Z.testbit (flags_load (clear_flag k w)) b = Z.testbit (flags_load w) b.
Proof.
  intros Hk Hb.
  assert (Hcases : b = 3 \/ b = 4 \/ b = 5 \/ b = 6 \/ b = 7) by lia.
  destruct Hk as [-> | [-> | ->]];
    destruct Hcases as [-> | [-> | [-> | [-> | ->]]]]; flag_bits.
Qed.

Lemma drain_pass_stray_flag (fuel : nat) (b : Z) (w w' : world) :
  3 <= b < 8 -> drain_pass fuel w = Done w' ->
  Z.testbit (flags_load w') b = Z.testbit (flags_load w) b.
Proof.
  intros Hb Hrun. unfold drain_pass in Hrun.
  transitivity (Z.testbit (flags_load (handle_end_frame (handle_start_frame w))) b).
  { destruct (flags_load_handle_timer _ _ _ Hrun) as [-> | ->];
      [reflexivity | apply testbit_clear_flag; [flag_kind | exact Hb]]. }
  transitivity (Z.testbit (flags_load (handle_start_frame w)) b).
  { destruct (flags_load_handle_end_frame (handle_start_frame w)) as [-> | ->];
      [reflexivity | apply testbit_clear_flag; [flag_kind | exact Hb]]. }
  destruct (flags_load_handle_start_frame w) as [-> | ->];
    [reflexivity | apply testbit_clear_flag; [flag_kind | exact Hb]].
Qed.

(** The drain loop relies on the three flags being the only bits: with
    any of the bits 3 to 7 of the flags word set, which no block clears,
    [while (app_vars.flags)] never ends. *)
Theorem drain_loop_stray_flag_never_ends (fuel : nat) (b : Z) (w : world) :
  3 <= b < 8 -> Z.testbit (flags_load w) b = true ->
  drain_loop fuel w = OutOfFuel.
Proof.
  intros Hb. revert w. induction fuel as [|fuel IH]; intros w Hbit; simpl;
    (destruct (Z.eqb_spec (flags_load w) 0) as [Hz|Hnz];
     [rewrite Hz, Z.bits_0 in Hbit; discriminate |]); [reflexivity |].
  destruct (drain_pass fuel w) as [w'|] eqn:Hpass; [| reflexivity].
  apply IH. now rewrite (drain_pass_stray_flag fuel b w w').
Qed.

(** At the idle wait with no flag pending, a frame or timer notification
    leaves exactly its flag in the word and the loop goes on to drain it;
    a radio-timer notification leaves the word at 0 and the loop sleeps
    again. *)
Theorem idle_wait_wakes_on_flag (q : irq) (w : world) :
  flags_load w = 0 ->
  (forall k, irq_flag q = Some k ->
     flags_load (isr q w) = k /\
     mote_step (AtIdle, isr q w) (AtDrain, isr q w)) /\
  (irq_flag q = None ->
     flags_load (isr q w) = 0 /\
     mote_step (AtIdle, isr q w) (AtIdle, bsp Bsp.board_sleep (isr q w))).
Proof.
  intros Hz. split.
  - intros k Hq.
    assert (Hfl : flags_load (isr q w) = k).
    { rewrite flags_load_isr, Hq, Hz.
      destruct q; cbn in Hq; try discriminate; injection Hq as <-; reflexivity. }
    split; [exact Hfl |]. apply step_wake. rewrite Hfl.
    destruct q; cbn in Hq; try discriminate; injection Hq as <-; discriminate.
  - intros Hq.
    assert (Hfl : flags_load (isr q w) = 0) by (now rewrite flags_load_isr, Hq).
    split; [exact Hfl |]. now apply step_sleep.
Qed.

(** A transmitted frame, start to end, in one run of the drain loop: in
    mode TX with the start and the end of the frame pending, the loop
    lights the sync LED, re-arms the receiver, switches the LED off, ends
    in mode RX with no flag left, and leaves the frame buffer, its
    declared length and the debug counters as they were. *)
Theorem transmit_frame_round (fuel : nat) (w : world) :
  state (app_vars w) = APP_STATE_TX ->
  flags_load w = 3 ->
  exists w',
    drain_loop (S fuel) w = Done w' /\
    calls w' = calls w ++ [Bsp.leds_sync_on; Bsp.radio_rxEnable; Bsp.leds_sync_off] /\
    state (app_vars w') = APP_STATE_RX /\
    flags_load w' = 0 /\
    packet (app_vars w') = packet (app_vars w) /\
    packet_len (app_vars w') = packet_len (app_vars w) /\
    app_dbg w' = app_dbg w.
Proof.
  intros Hst Hfl. destruct w as [[f st p len r l c] d cs rf].
  unfold flags_load in Hfl. cbn [app_vars flags state] in Hst, Hfl. subst f st.
  set (w := mk_world (mk_app_vars 3 APP_STATE_TX p len r l c) d cs rf).
  destruct (drain_loop_one_pass fuel w) as (w' & Hpass & Hz & Hloop);
    [unfold w, flags_load; cbn [app_vars flags]; lia | reflexivity |].
  exists w'. split; [exact Hloop |].
  assert (Hw : drain_pass fuel w =
               Done (mk_world (mk_app_vars 0 APP_STATE_RX p len r l c) d
                       (((cs ++ [Bsp.leds_sync_on]) ++ [Bsp.radio_rxEnable])
                          ++ [Bsp.leds_sync_off]) rf)).
  { vm_compute. reflexivity. }
  rewrite Hw in Hpass. injection Hpass as <-.
  split; [cbn [calls w]; now rewrite <- !app_assoc |].
  repeat split; reflexivity.
Qed.

(** With no interrupt in between, the drain loop of a node whose flags
    word holds only the three flags returns to the idle wait exactly when
    the timer block does not meet mode RX, and then after at most one
    pass and with no flag left. *)
Theorem drain_loop_ends_iff (w : world) :
  0 <= flags_load w < 8 ->
  ((exists fuel w', drain_loop fuel w = Done w') <-> timer_meets_rx w = false) /\
  (timer_meets_rx w = false ->
   forall fuel, exists w',
     drain_loop (S fuel) w = Done w' /\ flags_load w' = 0).
Proof using LENGTH_CRC_range.
  intros Hsmall.
  assert (Hends : timer_meets_rx w = false ->
            forall fuel, exists w',
              drain_loop (S fuel) w = Done w' /\ flags_load w' = 0).
  { intros Hmeet fuel. destruct (Z.eq_dec (flags_load w) 0) as [Hz|Hnz].
    - exists w. split; [now apply drain_loop_idle | exact Hz].
    - destruct (drain_loop_one_pass fuel w) as (w' & _ & Hz & Hloop);
        [lia | exact Hmeet |]. now exists w'. }
  split; [| exact Hends]. split.
  - intros (fuel & w' & Hrun).
    destruct (timer_meets_rx w) eqn:Hmeet; [| reflexivity]. exfalso.
    assert (Hnz : flags_load w <> 0).
    { apply (flag_set_nonzero APP_FLAG_TIMER).
      unfold timer_meets_rx in Hmeet. now apply andb_true_iff in Hmeet as [? _]. }
    destruct fuel as [|fuel]; simpl in Hrun;
      destruct (Z.eqb_spec (flags_load w) 0); try contradiction;
      [discriminate |].
    rewrite drain_pass_timer_rx in Hrun by exact Hmeet. discriminate.
  - intros Hmeet. destruct (Hends Hmeet O) as (w' & Hrun & _). eauto.
Qed.

End Mote.

(** * Concrete runs

    The at86rf215 build: [LENGTH_CRC] is 4 and the packet has 2047
    bytes. *)

Lemma LENGTH_CRC_4_range : 0 <= 4 <= 63492.
Proof. lia. Defined.

Lemma timer_while_transmitting_witness :
  state (app_vars (mote 0x04 APP_STATE_TX)) = APP_STATE_TX /\
  flag_set APP_FLAG_TIMER (mote 0x04 APP_STATE_TX) = true /\
  handle_timer 4 0 (mote 0x04 APP_STATE_TX) = Done (mote 0x00 APP_STATE_TX).
Proof.
  split; [reflexivity |]. split; [reflexivity |].
  destruct (timer_while_transmitting 4 0 (mote 0x04 APP_STATE_TX)
              eq_refl eq_refl) as (w' & Hrun & -> & _).
  exact Hrun.
Defined.

Lemma handling_is_per_kind_witness :
  flag_set APP_FLAG_START_FRAME (mote 0x06 APP_STATE_TX) = false /\
  handle_start_frame (mote 0x06 APP_STATE_TX) = mote 0x06 APP_STATE_TX /\
  flag_set APP_FLAG_TIMER (clear_flag APP_FLAG_END_FRAME (mote 0x06 APP_STATE_TX)) =
  flag_set APP_FLAG_TIMER (mote 0x06 APP_STATE_TX).
Proof.
  destruct (handling_is_per_kind 4 0 (mote 0x06 APP_STATE_TX))
    as (Hstart & _ & _ & Hclear & _).
  split; [reflexivity |]. split; [apply Hstart; reflexivity |].
  apply Hclear; [right; right; reflexivity | right; left; reflexivity |
                 discriminate].
Defined.

Lemma end_frame_while_receiving_witness :
  state (app_vars (mote 0x02 APP_STATE_RX)) = APP_STATE_RX /\
  flag_set APP_FLAG_END_FRAME (mote 0x02 APP_STATE_RX) = true /\
  packet_sized 4 (mote 0x02 APP_STATE_RX) /\
  packet_len (app_vars (handle_end_frame 4 (mote 0x02 APP_STATE_RX))) = 2047 /\
  state (app_vars (handle_end_frame 4 (mote 0x02 APP_STATE_RX))) = APP_STATE_RX.
Proof.
  split; [reflexivity |]. split; [reflexivity |]. split; [reflexivity |].
  destruct (end_frame_while_receiving 4 LENGTH_CRC_4_range
              (mote 0x02 APP_STATE_RX) eq_refl eq_refl eq_refl)
    as (_ & _ & _ & _ & _ & _ & _ & _ & Hst & Hlen & _).
  split; [exact Hlen | exact Hst].
Defined.

Lemma packet_len_is_capacity_witness :
  0 <= 4 <= 63492 /\
  main_reaches 4 (AtBoot, mote 0x00 0x00)
    (AtFill 1, (fill_step (0, startup_prepare 4 (mote 0x00 0x00))).2) /\
  packet_len (app_vars (fill_step (0, startup_prepare 4 (mote 0x00 0x00))).2) =
  LENGTH_PACKET 4 /\
  mote_reaches 4 (AtStartFrame, mote 0x03 APP_STATE_RX)
    (AtTimer, handle_end_frame 4 (handle_start_frame (mote 0x03 APP_STATE_RX))) /\
  packet_len (app_vars (handle_end_frame 4
                          (handle_start_frame (mote 0x03 APP_STATE_RX)))) =
  LENGTH_PACKET 4.
Proof.
  assert (Hboot : main_reaches 4 (AtBoot, mote 0x00 0x00)
            (AtFill 1, (fill_step (0, startup_prepare 4 (mote 0x00 0x00))).2)).
  { eapply rtc_l; [apply main_boot |].
    apply rtc_once. apply (main_fill 4 0 (startup_prepare 4 (mote 0x00 0x00))).
    reflexivity. }
  assert (Hreach : mote_reaches 4 (AtStartFrame, mote 0x03 APP_STATE_RX)
            (AtTimer, handle_end_frame 4
                        (handle_start_frame (mote 0x03 APP_STATE_RX)))).
  { eapply rtc_l; [apply step_start_frame |].
    eapply rtc_l; [apply step_end_frame |]. apply rtc_refl. }
  destruct (packet_len_is_capacity 4) as (_ & _ & Hloop & Hmain & _).
  destruct (Hmain LENGTH_CRC_4_range) as (_ & Hcap).
  split; [exact LENGTH_CRC_4_range |]. split; [exact Hboot |].
  split; [apply (Hcap _ _ Hboot); discriminate |].
  split; [exact Hreach |].
  exact (Hloop _ _ Hreach eq_refl).
Defined.

Lemma mode_stays_receiving_witness :
  mote_reaches 4 (AtEndFrame, mote 0x06 APP_STATE_RX)
    (AtTimer, handle_end_frame 4 (mote 0x06 APP_STATE_RX)) /\
  state (app_vars (mote 0x06 APP_STATE_RX)) = APP_STATE_RX /\
  state (app_vars (handle_end_frame 4 (mote 0x06 APP_STATE_RX))) = APP_STATE_RX.
Proof.
  assert (Hreach : mote_reaches 4 (AtEndFrame, mote 0x06 APP_STATE_RX)
            (AtTimer, handle_end_frame 4 (mote 0x06 APP_STATE_RX))).
  { eapply rtc_l; [apply step_end_frame |]. apply rtc_refl. }
  split; [exact Hreach |]. split; [reflexivity |].
  exact (mode_stays_receiving 4 LENGTH_CRC_4_range _ _ Hreach eq_refl).
Defined.

Lemma timer_while_receiving_never_transmits_witness :
  state (app_vars (mote 0x04 APP_STATE_RX)) = APP_STATE_RX /\
  flag_set APP_FLAG_TIMER (mote 0x04 APP_STATE_RX) = true /\
  drain_pass 4 3000 (mote 0x04 APP_STATE_RX) = OutOfFuel.
Proof.
  split; [reflexivity |]. split; [reflexivity |].
  apply (timer_while_receiving_never_transmits 4 LENGTH_CRC_4_range 3000
           (mote 0x04 APP_STATE_RX) eq_refl eq_refl).
Defined.

Lemma drain_loop_timer_rx_never_ends_witness :
  timer_meets_rx (mote 0x04 APP_STATE_RX) = true /\
  drain_loop 4 3000 (mote 0x04 APP_STATE_RX) = OutOfFuel.
Proof.
  split; [reflexivity |].
  apply (drain_loop_timer_rx_never_ends 4 LENGTH_CRC_4_range 3000
           (mote 0x04 APP_STATE_RX) eq_refl).
Defined.

Lemma startup_never_ends_witness :
  mote_main_startup 4 3000 (mote 0x00 0x00) = OutOfFuel.
Proof.
  apply (startup_never_ends 4 LENGTH_CRC_4_range 3000 (mote 0x00 0x00)).
Defined.

(** C7, as stated, fails: a start of frame is pending in mode TX, the
    loop has loaded the flags word to clear APP_FLAG_START_FRAME, the end
    of the frame is notified, and the loop's store erases the flag that
    [cb_endFrame] has just raised. *)
Lemma clear_flag_loses_raised_flag :
  flag_set APP_FLAG_END_FRAME (isr (IrqEndFrame 0) (mote 0x01 APP_STATE_TX)) = true /\
  flag_set APP_FLAG_END_FRAME
    (clear_flag_interrupted APP_FLAG_START_FRAME (IrqEndFrame 0)
       (mote 0x01 APP_STATE_TX)) = false /\
  flags_load (clear_flag_interrupted APP_FLAG_START_FRAME (IrqEndFrame 0)
                (mote 0x01 APP_STATE_TX)) = 0.
Proof. repeat split; reflexivity. Qed.

Lemma clear_flag_is_not_atomic_witness :
  irq_flag (IrqEndFrame 0) = Some APP_FLAG_END_FRAME /\
  app_flag APP_FLAG_START_FRAME /\
  APP_FLAG_END_FRAME <> APP_FLAG_START_FRAME /\
  flag_set APP_FLAG_END_FRAME
    (clear_flag APP_FLAG_START_FRAME
       (isr (IrqEndFrame 0) (mote 0x01 APP_STATE_TX))) = true.
Proof.
  assert (Hk : app_flag APP_FLAG_START_FRAME) by (left; reflexivity).
  assert (Hne : APP_FLAG_END_FRAME <> APP_FLAG_START_FRAME) by discriminate.
  split; [reflexivity |]. split; [exact Hk |]. split; [exact Hne |].
  apply (clear_flag_is_not_atomic (IrqEndFrame 0) APP_FLAG_END_FRAME
           APP_FLAG_START_FRAME (mote 0x01 APP_STATE_TX) eq_refl Hk Hne).
Defined.

(** C9, as stated, fails: the 256th start of frame takes
    [num_startFrame] from 255 back to 0. *)
Lemma debug_counter_wraps :
  let w := with_dbg (fun _ => mk_app_dbg 0 0 255 0 0) (mote 0x00 APP_STATE_RX) in
  num_startFrame (app_dbg w) = 255 /\
  num_startFrame (app_dbg (cb_startFrame 0 w)) = 0.
Proof. split; reflexivity. Qed.

Lemma debug_counters_count_modulo_256_witness :
  let w := with_dbg (fun _ => mk_app_dbg 0 0 7 0 0) (mote 0x00 APP_STATE_RX) in
  0 <= num_startFrame (app_dbg w) < 255 /\
  num_startFrame (app_dbg (cb_startFrame 0 w)) = 8.
Proof.
  cbn zeta. split; [cbn; lia |].
  destruct (debug_counters_count_modulo_256 4 (IrqStartFrame 0)
              (with_dbg (fun _ => mk_app_dbg 0 0 7 0 0) (mote 0x00 APP_STATE_RX)))
    as (_ & Hinc & _).
  apply Hinc. cbn. lia.
Defined.

(** ** Runs for the further properties *)

Lemma transmit_frame_round_witness :
  state (app_vars (mote 0x03 APP_STATE_TX)) = APP_STATE_TX /\
  flags_load (mote 0x03 APP_STATE_TX) = 3 /\
  exists w', drain_loop 4 1 (mote 0x03 APP_STATE_TX) = Done w' /\
             state (app_vars w') = APP_STATE_RX /\ flags_load w' = 0.
Proof.
  split; [reflexivity |]. split; [reflexivity |].
  destruct (transmit_frame_round 4 0 (mote 0x03 APP_STATE_TX) eq_refl eq_refl)
    as (w' & Hrun & _ & Hst & Hz & _).
  exists w'. auto.
Defined.

Lemma blocks_in_no_mode_witness :
  state (app_vars (mote 0x07 0)) <> APP_STATE_RX /\
  state (app_vars (mote 0x07 0)) <> APP_STATE_TX /\
  handle_end_frame 4 (mote 0x07 0) = clear_flag APP_FLAG_END_FRAME (mote 0x07 0).
Proof.
  assert (Hrx : state (app_vars (mote 0x07 0)) <> APP_STATE_RX) by discriminate.
  assert (Htx : state (app_vars (mote 0x07 0)) <> APP_STATE_TX) by discriminate.
  split; [exact Hrx |]. split; [exact Htx |].
  destruct (blocks_in_no_mode 4 0 (mote 0x07 0) Hrx Htx) as (_ & Hend & _).
  apply Hend. reflexivity.
Defined.

Lemma fill_loop_ends_iff_witness :
  packet_len (app_vars (with_vars (set_packet_len 3) (mote 0x00 APP_STATE_RX))) <= 255 /\
  exists fuel w',
    fill_loop fuel 0 (with_vars (set_packet_len 3) (mote 0x00 APP_STATE_RX)) = Done w'.
Proof.
  assert (Hle : packet_len (app_vars (with_vars (set_packet_len 3)
                                        (mote 0x00 APP_STATE_RX))) <= 255)
    by (vm_compute; congruence).
  split; [exact Hle |].
  apply (fill_loop_ends_iff (with_vars (set_packet_len 3) (mote 0x00 APP_STATE_RX))).
  exact Hle.
Defined.

Lemma fill_loop_small_witness :
  let w := with_vars (fun v => set_packet [0; 0; 0] (set_packet_len 3 v))
             (mote 0x00 APP_STATE_RX) in
  packet_len (app_vars w) = 3 /\ length (packet (app_vars w)) = 3%nat /\
  fill_loop 3 0 w = Done (with_vars (set_packet [ID; ID; ID]) w).
Proof.
  cbn zeta. split; [reflexivity |]. split; [reflexivity |].
  exact (fill_loop_small
           (with_vars (fun v => set_packet [0; 0; 0] (set_packet_len 3 v))
              (mote 0x00 APP_STATE_RX))
           3 3 0 eq_refl eq_refl ltac:(lia) ltac:(lia) ltac:(lia)).
Defined.

Lemma fill_step_progress_witness :
  (Nat.iter 300 fill_step (0, mote 0x00 APP_STATE_RX)).1 = 44.
Proof.
  exact (proj1 (fill_step_progress 300 (mote 0x00 APP_STATE_RX))).
Defined.

Lemma notification_recorded_once_witness :
  flags_load (isr IrqTimer (isr IrqTimer (mote 0x00 APP_STATE_RX))) =
  flags_load (isr IrqTimer (mote 0x00 APP_STATE_RX)) /\
  flag_set APP_FLAG_TIMER (isr IrqTimer (mote 0x00 APP_STATE_RX)) = true.
Proof.
  destruct (notification_recorded_once IrqTimer (mote 0x00 APP_STATE_RX))
    as (Honce & Hset & _).
  split; [exact Honce |]. now apply (Hset APP_FLAG_TIMER).
Defined.

Lemma debug_counter_after_witness :
  0 <= read_counter NumTimer (app_dbg (mote 0x00 APP_STATE_RX)) < 256 /\
  read_counter NumTimer
    (app_dbg (Nat.iter 300 (isr IrqTimer) (mote 0x00 APP_STATE_RX))) = 44.
Proof.
  assert (Hc : 0 <= read_counter NumTimer (app_dbg (mote 0x00 APP_STATE_RX)) < 256)
    by (vm_compute; split; congruence).
  split; [exact Hc |].
  exact (debug_counter_after IrqTimer 300 (mote 0x00 APP_STATE_RX) Hc).
Defined.

Lemma flags_stay_small_witness :
  mote_reaches 4 (AtIdle, mote 0x00 APP_STATE_RX)
    (AtDrain, isr IrqTimer (mote 0x00 APP_STATE_RX)) /\
  0 <= flags_load (mote 0x00 APP_STATE_RX) < 8 /\
  0 <= flags_load (isr IrqTimer (mote 0x00 APP_STATE_RX)) < 8.
Proof.
  assert (Hreach : mote_reaches 4 (AtIdle, mote 0x00 APP_STATE_RX)
                     (AtDrain, isr IrqTimer (mote 0x00 APP_STATE_RX))).
  { eapply rtc_l; [apply (step_irq 4 AtIdle IrqTimer) |].
    eapply rtc_l; [apply step_wake; discriminate |]. apply rtc_refl. }
  assert (Hsmall : 0 <= flags_load (mote 0x00 APP_STATE_RX) < 8)
    by (vm_compute; split; congruence).
  split; [exact Hreach |]. split; [exact Hsmall |].
  exact (flags_stay_small 4 _ _ Hreach Hsmall).
Defined.

Lemma mode_stays_tx_or_rx_witness :
  mote_reaches 4 (AtEndFrame, mote 0x02 APP_STATE_TX)
    (AtTimer, handle_end_frame 4 (mote 0x02 APP_STATE_TX)) /\
  (state (app_vars (handle_end_frame 4 (mote 0x02 APP_STATE_TX))) = APP_STATE_TX \/
   state (app_vars (handle_end_frame 4 (mote 0x02 APP_STATE_TX))) = APP_STATE_RX).
Proof.
  assert (Hreach : mote_reaches 4 (AtEndFrame, mote 0x02 APP_STATE_TX)
                     (AtTimer, handle_end_frame 4 (mote 0x02 APP_STATE_TX))).
  { eapply rtc_l; [apply step_end_frame |]. apply rtc_refl. }
  split; [exact Hreach |].
  exact (mode_stays_tx_or_rx 4 _ _ Hreach (or_introl eq_refl)).
Defined.

Lemma mode_changes_only_witness :
  mote_step 4 (AtEndFrame, mote 0x02 APP_STATE_TX)
    (AtTimer, handle_end_frame 4 (mote 0x02 APP_STATE_TX)) /\
  state (app_vars (handle_end_frame 4 (mote 0x02 APP_STATE_TX))) <>
  state (app_vars (mote 0x02 APP_STATE_TX)) /\
  state (app_vars (handle_end_frame 4 (mote 0x02 APP_STATE_TX))) = APP_STATE_RX.
Proof.
  assert (Hstep : mote_step 4 (AtEndFrame, mote 0x02 APP_STATE_TX)
                    (AtTimer, handle_end_frame 4 (mote 0x02 APP_STATE_TX)))
    by apply step_end_frame.
  assert (Hne : state (app_vars (handle_end_frame 4 (mote 0x02 APP_STATE_TX))) <>
                state (app_vars (mote 0x02 APP_STATE_TX)))
    by (intros H; vm_compute in H; discriminate H).
  split; [exact Hstep |]. split; [exact Hne |].
  destruct (mode_changes_only 4 _ _ Hstep Hne)
    as [(_ & _ & _ & Hrx) | (Hpc & _)]; [exact Hrx | discriminate Hpc].
Defined.

Lemma drain_loop_ends_iff_witness :
  0 <= flags_load (mote 0x03 APP_STATE_RX) < 8 /\
  timer_meets_rx (mote 0x03 APP_STATE_RX) = false /\
  exists fuel w', drain_loop 4 fuel (mote 0x03 APP_STATE_RX) = Done w'.
Proof.
  assert (Hsmall : 0 <= flags_load (mote 0x03 APP_STATE_RX) < 8)
    by (vm_compute; split; congruence).
  split; [exact Hsmall |]. split; [reflexivity |].
  apply (drain_loop_ends_iff 4 LENGTH_CRC_4_range (mote 0x03 APP_STATE_RX) Hsmall).
  reflexivity.
Defined.

Lemma drain_loop_stray_flag_never_ends_witness :
  Z.testbit (flags_load (mote 0x08 APP_STATE_RX)) 3 = true /\
  drain_loop 4 50 (mote 0x08 APP_STATE_RX) = OutOfFuel.
Proof.
  split; [reflexivity |].
  apply (drain_loop_stray_flag_never_ends 4 50 3 (mote 0x08 APP_STATE_RX));
    [lia | reflexivity].
Defined.

Lemma idle_wait_wakes_on_flag_witness :
  flags_load (mote 0x00 APP_STATE_RX) = 0 /\
  flags_load (isr IrqTimer (mote 0x00 APP_STATE_RX)) = APP_FLAG_TIMER /\
  flags_load (isr IrqRadioTimerCompare (mote 0x00 APP_STATE_RX)) = 0.
Proof.
  split; [reflexivity |]. split.
  - destruct (idle_wait_wakes_on_flag 4 IrqTimer (mote 0x00 APP_STATE_RX) eq_refl)
      as (Hwake & _).
    now apply Hwake.
  - destruct (idle_wait_wakes_on_flag 4 IrqRadioTimerCompare
                (mote 0x00 APP_STATE_RX) eq_refl) as (_ & Hsleep).
    now apply Hsleep.
Defined.

Lemma packet_written_only_in_rx_witness :
  mote_step 4 (AtEndFrame, mote 0x02 APP_STATE_RX)
    (AtTimer, handle_end_frame 4 (mote 0x02 APP_STATE_RX)) /\
  packet (app_vars (handle_end_frame 4 (mote 0x02 APP_STATE_RX))) <>
  packet (app_vars (mote 0x02 APP_STATE_RX)) /\
  state (app_vars (mote 0x02 APP_STATE_RX)) = APP_STATE_RX.
Proof.
  assert (Hstep : mote_step 4 (AtEndFrame, mote 0x02 APP_STATE_RX)
                    (AtTimer, handle_end_frame 4 (mote 0x02 APP_STATE_RX)))
    by apply step_end_frame.
  assert (Hne : packet (app_vars (handle_end_frame 4 (mote 0x02 APP_STATE_RX))) <>
                packet (app_vars (mote 0x02 APP_STATE_RX)))
    by (intros H; vm_compute in H; discriminate H).
  split; [exact Hstep |]. split; [exact Hne |].
  exact (proj1 (packet_written_only_in_rx 4 _ _ Hstep Hne)).
Defined.
